(** * controllers/utils: reconciliation helpers of the IPFS operator

    A shallow embedding of [controllers/utils/utils.go] and the properties
    the specification states about it.

    Definitions:
    - [Int64]: Go's [int64] arithmetic, as [Z] with the wrap-around written out.
    - [Resource]: the part of [k8s.io/apimachinery/pkg/api/resource] and of
      [k8s.io/api/core/v1] that [IPFSContainerResources] builds values of.
    - [Sizer]: [IPFSContainerResources]; [SizerSpec]: the sizing policy as
      the specification words it.
    - [Errors], [Hex]: Go's [error] values with [%w] wrapping, and
      [encoding/hex].
    - [Identity]: [randomKey], [NewClusterSecret], [NewSwarmKey], [NewKey],
      [GenerateIdentity].
    - [Sync]: [CreateOrPatchTrackedObjects] and [ErrFunc].
    - [SyncSpec]: the backend's side of a run, told from the backend alone.
    - [Fakes], [MoreFakes], [QuotaFake]: concrete collaborators to run the
      functions on.

    Properties: [Int64Facts], [SizerFacts], [HexFacts], [IdentityFacts],
    [SyncFacts], and further ones in [SizerMore], [IdentityMore],
    [SyncMore]. *)

From Stdlib Require Import ZArith Lia String Ascii List.
From Stdlib Require Strings.Byte.
From stdpp Require Import gmap strings list fin_maps.

Local Open Scope Z_scope.

(** ** Go's int64 *)

Module Int64.

Definition min_int : Z := - 2 ^ 63.
Definition max_int : Z := 2 ^ 63 - 1.

(** The values an [int64] variable can hold. *)
Definition in_range (z : Z) : Prop := min_int <= z <= max_int.

(** Two's complement wrap-around of a mathematical result. *)
Definition wrap (z : Z) : Z := (z + 2 ^ 63) mod 2 ^ 64 - 2 ^ 63.

Definition add (x y : Z) : Z := wrap (x + y).
Definition mul (x y : Z) : Z := wrap (x * y).

(** [x / y]: truncates toward zero, and panics when the divisor is zero
    ([None]). *)
Definition quo (x y : Z) : option Z :=
  if y =? 0 then None else Some (wrap (Z.quot x y)).

End Int64.

(** ** Quantities and resource requirements *)

Module Resource.

(** [resource.Scale]: a power of ten. *)
Definition Scale := Z.
Definition Milli : Scale := -3.
Definition Giga : Scale := 9.

Inductive Format := DecimalExponent | BinarySI | DecimalSI.

(** [resource.Quantity] as [NewScaledQuantity] fills it: the [int64Amount]
    (value and scale) and the format. *)
Record Quantity := mkQuantity {
  value : Z;
  scale : Scale;
  format : Format
}.

Definition NewScaledQuantity (v : Z) (s : Scale) : Quantity :=
  {| value := v; scale := s; format := DecimalSI |}.

(** The number the quantity denotes, in thousandths of the base unit
    (an integer for every scale from [Milli] up). *)
Definition milli_units (q : Quantity) : Z := value q * 10 ^ (scale q + 3).

(** The order of [Quantity.Cmp] on quantities whose scale is at least
    [Milli]. *)
Definition Quantity_le (q1 q2 : Quantity) : Prop :=
  milli_units q1 <= milli_units q2.

(** [corev1.ResourceName] and its two constants used here. *)
Definition ResourceName := string.
Definition ResourceCPU : ResourceName := "cpu"%string.
Definition ResourceMemory : ResourceName := "memory"%string.

(** [corev1.ResourceList] is [map[ResourceName]resource.Quantity]. *)
Abbreviation ResourceList := (gmap string Quantity).

Record ResourceRequirements := mkResourceRequirements {
  Limits : ResourceList;
  Requests : ResourceList
}.

End Resource.

(** ** IPFSContainerResources *)

Module Sizer.
Import Resource.

(** [units.Tebibyte] of [github.com/alecthomas/units]. *)
Definition Tebibyte : Z := 2 ^ 40.

(** [None] stands for a run-time panic (integer division is the only
    operation of the body that can panic). *)
Definition IPFSContainerResources (ipfsStorageBytes : Z)
  : option ResourceRequirements :=
  match Int64.quo ipfsStorageBytes Tebibyte with
  | None => None
  | Some ipfsStorageTB =>
      let ipfsMilliCoresMin := Int64.add 250 (Int64.mul 500 ipfsStorageTB) in
      let ipfsRAMGBMin := ipfsStorageTB in
      let ipfsRAMGBMin := if ipfsRAMGBMin <? 2 then 1 else ipfsRAMGBMin in
      let ipfsRAMMinQuantity := NewScaledQuantity ipfsRAMGBMin Giga in
      let ipfsRAMMaxQuantity :=
        NewScaledQuantity (Int64.mul 2 ipfsRAMGBMin) Giga in
      let ipfsCoresMinQuantity := NewScaledQuantity ipfsMilliCoresMin Milli in
      let ipfsCoresMaxQuantity :=
        NewScaledQuantity (Int64.mul 2 ipfsMilliCoresMin) Milli in
      Some {| Requests := <[ResourceCPU := ipfsCoresMinQuantity]>
                            (<[ResourceMemory := ipfsRAMMinQuantity]> ∅);
              Limits := <[ResourceCPU := ipfsCoresMaxQuantity]>
                          (<[ResourceMemory := ipfsRAMMaxQuantity]> ∅) |}
  end.

(** The four components of a profile. *)
Definition cpuRequest (r : ResourceRequirements) : option Quantity :=
  Requests r !! ResourceCPU.
Definition cpuLimit (r : ResourceRequirements) : option Quantity :=
  Limits r !! ResourceCPU.
Definition memoryRequest (r : ResourceRequirements) : option Quantity :=
  Requests r !! ResourceMemory.
Definition memoryLimit (r : ResourceRequirements) : option Quantity :=
  Limits r !! ResourceMemory.

(** Componentwise order of two profiles: each of the four quantities of
    the first is present, and at most the corresponding one of the
    second. *)
Definition component_le (c : ResourceRequirements -> option Quantity)
    (r1 r2 : ResourceRequirements) : Prop :=
  exists q1 q2, c r1 = Some q1 /\ c r2 = Some q2 /\ Quantity_le q1 q2.

Definition profile_le (r1 r2 : ResourceRequirements) : Prop :=
  component_le cpuRequest r1 r2 /\ component_le cpuLimit r1 r2 /\
  component_le memoryRequest r1 r2 /\ component_le memoryLimit r1 r2.

End Sizer.

(** The sizing policy in the words of the specification (section 4.2), in
    exact integer arithmetic, to compare [Sizer.IPFSContainerResources]
    with. *)

Module SizerSpec.
Import Resource.

(** Step 1: binary terabytes, rounded down. *)
Definition storageTB (storageBytes : Z) : Z := storageBytes / 2 ^ 40.

(** Step 2. *)
Definition cpuMilliMin (storageTB : Z) : Z := 250 + 500 * storageTB.

(** Step 3: below 2 the value becomes 1. *)
Definition ramGBMin (storageTB : Z) : Z :=
  if storageTB <? 2 then 1 else storageTB.

(** Steps 4 and 5. *)
Definition profile (storageTB : Z) : ResourceRequirements :=
  {| Requests :=
       <[ResourceCPU := NewScaledQuantity (cpuMilliMin storageTB) Milli]>
         (<[ResourceMemory := NewScaledQuantity (ramGBMin storageTB) Giga]> ∅);
     Limits :=
       <[ResourceCPU := NewScaledQuantity (2 * cpuMilliMin storageTB) Milli]>
         (<[ResourceMemory :=
              NewScaledQuantity (2 * ramGBMin storageTB) Giga]> ∅) |}.

Definition sizeFor (storageBytes : Z) : ResourceRequirements :=
  profile (storageTB storageBytes).

End SizerSpec.

(** ** Errors *)

Module Errors.

(** A Go [error] value: one made of a message alone, or the [*fmt.wrapError]
    that [fmt.Errorf] builds for a format with one [%w] verb. *)
Inductive error : Type :=
| errorString (s : string)
| wrapError (msg : string) (err : error).

(** The [Error()] and [Unwrap()] methods. *)
Definition Error (e : error) : string :=
  match e with
  | errorString s => s
  | wrapError msg _ => msg
  end.

Definition Unwrap (e : error) : option error :=
  match e with
  | errorString _ => None
  | wrapError _ err => Some err
  end.

(** [fmt.Errorf(prefix + "%w", err)]: the message is the prefix followed
    by the message of [err], and [err] is kept as the wrapped error. *)
Definition Errorf_w (prefix : string) (err : error) : error :=
  wrapError (prefix +:+ Error err) err.

(** The message of [e] contains the text [ctx]. *)
Definition mentions (ctx : string) (e : error) : bool :=
  match String.index 0 ctx (Error e) with
  | Some _ => true
  | None => false
  end.

(** [errors.Is]-style chain: [target] is [e] or is reached from [e] by
    unwrapping. *)
Fixpoint in_chain (target e : error) : Prop :=
  e = target \/
  match e with
  | errorString _ => False
  | wrapError _ err => in_chain target err
  end.

End Errors.

(** ** encoding/hex *)

Module Hex.

Definition hextable : string := "0123456789abcdef".

(** [hextable[i]]; every index the encoder uses is below 16. *)
Definition hexdigit (i : N) : ascii :=
  match String.get (N.to_nat i) hextable with
  | Some c => c
  | None => "000"%char
  end.

(** [hex.EncodeToString]: two characters per byte, [hextable[v>>4]] and
    [hextable[v&0x0f]]. *)
Fixpoint EncodeToString (src : list Byte.byte) : string :=
  match src with
  | [] => EmptyString
  | v :: rest =>
      String (hexdigit (N.shiftr (Byte.to_N v) 4))
        (String (hexdigit (N.land (Byte.to_N v) 15)) (EncodeToString rest))
  end.

(** [fromHexChar]. *)
Definition fromHexChar (c : ascii) : option N :=
  let n := N_of_ascii c in
  if ((48 <=? n) && (n <=? 57))%N then Some (n - 48)%N
  else if ((97 <=? n) && (n <=? 102))%N then Some (n - 97 + 10)%N
  else if ((65 <=? n) && (n <=? 70))%N then Some (n - 65 + 10)%N
  else None.

(** [hex.DecodeString]; [None] for an odd length or a character that is
    not a hexadecimal digit. *)
Fixpoint DecodeString (s : string) : option (list Byte.byte) :=
  match s with
  | EmptyString => Some []
  | String _ EmptyString => None
  | String p (String q rest) =>
      match fromHexChar p, fromHexChar q, DecodeString rest with
      | Some a, Some b, Some tl =>
          match Byte.of_N (N.lor (N.shiftl a 4) b) with
          | Some v => Some (v :: tl)
          | None => None
          end
      | _, _, _ => None
      end
  end.

(** A lowercase hexadecimal digit: [0-9a-f]. *)
Definition is_lower_hex (c : ascii) : bool :=
  let n := N_of_ascii c in
  (((48 <=? n) && (n <=? 57)) || ((97 <=? n) && (n <=? 102)))%N.

Fixpoint all_chars (p : ascii -> bool) (s : string) : bool :=
  match s with
  | EmptyString => true
  | String c rest => p c && all_chars p rest
  end.

End Hex.

(** ** Key and secret generation *)

Module Identity.
Import Errors.

(** The newline character of the [\n] escapes. *)
Definition newline : ascii := "010"%char.

(** [fmt.Sprintf("%s\n%s\n%s", a, b, c)]. *)
Definition Sprintf_3lines (a b c : string) : string :=
  a +:+ String newline (b +:+ String newline c).

(** [strings.Split(s, "\n")], to speak of the lines of a text. *)
Fixpoint lines (s : string) : list string :=
  match s with
  | EmptyString => [EmptyString]
  | String c rest =>
      if Ascii.eqb c newline then EmptyString :: lines rest
      else match lines rest with
           | l :: ls => String c l :: ls
           | [] => [String c EmptyString]
           end
  end.

(** Libp2p's [crypto.Ed25519] key type ([pb.KeyType_Ed25519]). *)
Definition Ed25519 : Z := 1.

Section WithRandomSource.

(** The state of the process-wide [crypto/rand.Reader]. *)
Variable Reader : Type.

(** [rand.Read(buf)] for a buffer of the given length: the next state of
    the source, the byte the call leaves at each index of the buffer,
    and the error. *)
Variable rand_Read : Reader -> nat -> Reader * (nat -> Byte.byte) * option error.

(** Computations that read the random source. *)
Definition Gen (A : Type) : Type := Reader -> Reader * A.
Definition ret {A} (a : A) : Gen A := fun r => (r, a).
Definition bind {A B} (c : Gen A) (k : A -> Gen B) : Gen B :=
  fun r => let '(r', a) := c r in k a r'.

Notation "x <- c ;; k" := (bind c (fun x => k))
  (at level 100, c at next level, right associativity).

(** The call [rand.Read(buf)] on a slice [buf]: the contents of the
    slice after the call, and the error. *)
Definition Read (buf : list Byte.byte) : Gen (list Byte.byte * option error) :=
  fun r =>
    let '(r', written, err) := rand_Read r (length buf) in
    (r', (map written (seq 0 (length buf)), err)).

(** [randomKey]; the nil slice is the empty list. *)
Definition randomKey (len : nat) : Gen (list Byte.byte * option error) :=
  let buf := repeat Byte.x00 len in
  res <- Read buf ;;
  let '(buf, err) := res in
  match err with
  | Some e => ret ([], Some e)
  | None => ret (buf, None)
  end.

Definition NewClusterSecret : Gen (string * option error) :=
  res <- randomKey 32 ;;
  let '(buf, err) := res in
  match err with
  | Some e => ret (EmptyString, Some e)
  | None => ret (Hex.EncodeToString buf, None)
  end.

Definition NewSwarmKey : Gen (string * option error) :=
  let swarmPrefix := "/key/swarm/psk/1.0.0"%string in
  let multiBase := "/base16/"%string in
  res <- randomKey 32 ;;
  let '(buf, err) := res in
  match err with
  | Some e => ret (EmptyString, Some e)
  | None =>
      let key := Hex.EncodeToString buf in
      let swarmKey := Sprintf_3lines swarmPrefix multiBase key in
      ret (swarmKey, None)
  end.

(** Libp2p, taken as given: key values (an interface value is [None]
    when nil), key generation from the random source, the peer ID of a
    public key, the serialization of a private key; and
    [base64.StdEncoding.EncodeToString]. *)
Variable privkey pubkey : Type.
Variable GenerateKeyPair :
  Z -> Z -> Gen (option privkey * option pubkey * option error).
Variable IDFromPublicKey : option pubkey -> string * option error.
Variable MarshalPrivateKey : option privkey -> list Byte.byte * option error.
Variable base64_EncodeToString : list Byte.byte -> string.

Definition NewKey : Gen (option privkey * string * option error) :=
  let edDSAKeyLen := 4096 in
  res <- GenerateKeyPair Ed25519 edDSAKeyLen ;;
  let '(priv, pub, err) := res in
  match err with
  | Some e => ret (None, EmptyString, Some e)
  | None =>
      let '(peerid, err) := IDFromPublicKey pub in
      match err with
      | Some e => ret (None, EmptyString, Some e)
      | None => ret (priv, peerid, None)
      end
  end.

(** Returns [(peerid, privStr, err)]. *)
Definition GenerateIdentity : Gen (string * string * option error) :=
  res <- NewKey ;;
  let '(privateKey, peerid, err) := res in
  match err with
  | Some e =>
      ret (EmptyString, EmptyString,
           Some (Errorf_w "cannot generate new key: " e))
  | None =>
      let '(privBytes, err) := MarshalPrivateKey privateKey in
      match err with
      | Some e =>
          ret (EmptyString, EmptyString,
               Some (Errorf_w "cannot get bytes from private key: " e))
      | None =>
          let privStr := base64_EncodeToString privBytes in
          ret (peerid, privStr, err)
      end
  end.

(** The steps of [GenerateIdentity] that can fail. *)
Inductive Step := KeyGeneration | Serialization.

(** [step_fails r step cause r']: run from the state [r] of the random
    source, the given step is the one that fails, with the error
    [cause], and leaves the random source in the state [r']. *)
Inductive step_fails (r : Reader) : Step -> error -> Reader -> Prop :=
| NewKey_fails r' privateKey peerid cause :
    NewKey r = (r', (privateKey, peerid, Some cause)) ->
    step_fails r KeyGeneration cause r'
| MarshalPrivateKey_fails r' privateKey peerid privBytes cause :
    NewKey r = (r', (privateKey, peerid, None)) ->
    MarshalPrivateKey privateKey = (privBytes, Some cause) ->
    step_fails r Serialization cause r'.

(** The context of each step in the words of the specification
    (section 4.3). *)
Definition spec_context (step : Step) : string :=
  match step with
  | KeyGeneration => "cannot generate new key"
  | Serialization => "cannot serialize private key"
  end.

End WithRandomSource.

End Identity.

(** ** CreateOrPatchTrackedObjects *)

Module Sync.
Import Errors.

(** [schema.GroupVersionKind]. *)
Record GroupVersionKind := mkGVK {
  Group : string;
  Version : string;
  Kind : string
}.

(** [controllerutil.OperationResult] is a string type. *)
Definition OperationResult := string.

(** A value passed to the logger after the message. *)
Inductive LogValue :=
| VString (s : string)
| VResult (r : OperationResult).

(** A record handed to the [logr.Logger]: [log.Error(err, msg, kv...)] or
    [log.Info(msg, kv...)]. *)
Inductive LogRecord :=
| LogError (err : error) (msg : string) (keysAndValues : list (string * LogValue))
| LogInfo (msg : string) (keysAndValues : list (string * LogValue)).

Definition is_LogError (r : LogRecord) : bool :=
  match r with LogError _ _ _ => true | LogInfo _ _ => false end.

(** [controllerutil.MutateFn] is [func() error]: it may change the world
    (the state outside the function: the cluster behind the client and the
    objects the tracked pointers refer to) and returns an error or nil. *)
Definition MutateFn (World : Type) : Type := World -> World * option error.

Section Backend.

Context {World : Type}.

Local Abbreviation MutateFn := (MutateFn World).

(** [ErrFunc]. *)
Definition ErrFunc (err : option error) : MutateFn :=
  fun w => (w, err).

(** [client.Object] values (pointers, compared by identity as map keys)
    with the two methods the function calls. *)
Context {Object : Type} `{Countable Object}.
Variable GetObjectKind_GroupVersionKind : World -> Object -> GroupVersionKind.
Variable GetName : World -> Object -> string.

(** [client.Client] handles, and [controllerutil.CreateOrPatch(ctx,
    client, obj, mut)] taken as given: the world after the call, the
    operation result and the error. *)
Context {Client : Type}.
Variable CreateOrPatch :
  Client -> Object -> MutateFn -> World -> World * (OperationResult * option error).

(** One call of [controllerutil.CreateOrPatch] and what it returned. *)
Record Call := mkCall {
  call_obj : Object;
  call_mut : MutateFn;
  call_result : OperationResult;
  call_err : option error
}.

(** What a run leaves behind: the world, the calls made to the backend
    in the order they were made, and the records logged. *)
Record Effects := mkEffects {
  world : World;
  calls : list Call;
  logged : list LogRecord
}.

(** The body of the [range] loop on one entry of the map; the flag is
    the local [requeue]. *)
Definition loop_body (client : Client) (obj : Object) (mut : MutateFn)
    (requeue : bool) (st : Effects) : bool * Effects :=
  let kind := GetObjectKind_GroupVersionKind (world st) obj in
  let name := GetName (world st) obj in
  let '(w, (result, err)) := CreateOrPatch client obj mut (world st) in
  let called := calls st ++ [mkCall obj mut result err] in
  match err with
  | Some e =>
      (true,
       {| world := w; calls := called;
          logged := logged st ++
            [LogError e "error creating object"
               [("objname"%string, VString name);
                ("objKind"%string, VString (Kind kind));
                ("result"%string, VResult result)]] |})
  | None =>
      (requeue,
       {| world := w; calls := called;
          logged := logged st ++
            [LogInfo "object changed"
               [("objName"%string, VString name);
                ("objKind"%string, VString (Kind kind));
                ("result"%string, VResult result)]] |})
  end.

(** The loop over the entries in the order the runtime yields them. *)
Fixpoint range_loop (client : Client) (order : list (Object * MutateFn))
    (requeue : bool) (st : Effects) : bool * Effects :=
  match order with
  | [] => (requeue, st)
  | (obj, mut) :: rest =>
      let '(requeue, st) := loop_body client obj mut requeue st in
      range_loop client rest requeue st
  end.

(** The function run with the entries yielded in a given order. *)
Definition CreateOrPatchTrackedObjects_in (order : list (Object * MutateFn))
    (client : Client) (w : World) : bool * Effects :=
  let requeue := false in
  range_loop client order requeue {| world := w; calls := []; logged := [] |}.

(** Go does not specify the order in which [range] yields the entries of
    a map, only that each entry is yielded once. The orders admitted here
    are all the permutations of the entries: they include whichever order
    the runtime picks, and what is proved of every admitted order holds of
    that one. *)
Definition range_order (trackedObjects : gmap Object MutateFn)
    (order : list (Object * MutateFn)) : Prop :=
  order ≡ₚ map_to_list trackedObjects.

(** [CreateOrPatchTrackedObjects]: the results the function can produce
    from a map, a client and a world. *)
Definition CreateOrPatchTrackedObjects
    (trackedObjects : gmap Object MutateFn) (client : Client) (w : World)
    (out : bool * Effects) : Prop :=
  exists order,
    range_order trackedObjects order /\
    out = CreateOrPatchTrackedObjects_in order client w.

(** What a run recorded for an object: the operation result and the
    error of the first call made on it. *)
Definition outcome_of (obj : Object) (e : Effects)
    : option (OperationResult * option error) :=
  match find (fun c => bool_decide (call_obj c = obj)) (calls e) with
  | Some c => Some (call_result c, call_err c)
  | None => None
  end.

Definition call_failed (c : Call) : Prop := call_err c <> None.

(** The map entry a call was made for. *)
Definition call_entry (c : Call) : Object * MutateFn :=
  (call_obj c, call_mut c).

(** A recorded call carries what the backend answered in some world. *)
Definition genuine (client : Client) (c : Call) : Prop :=
  exists w,
    snd (CreateOrPatch client (call_obj c) (call_mut c) w) =
      (call_result c, call_err c).

End Backend.

End Sync.

(** ** Concrete collaborators

    Small stand-ins for the random source, libp2p and the apply backend, to
    run the functions on. *)

Module Fakes.
Import Errors.

Definition byte_of_nat (n : nat) : Byte.byte :=
  match Byte.of_nat (n mod 256) with
  | Some b => b
  | None => Byte.x00
  end.

(** A random source that counts its reads: the read in state [n] writes
    the bytes [n], [n+1], ... and fails exactly when [n] is odd. *)
Definition counting_Read (n len : nat)
  : nat * (nat -> Byte.byte) * option error :=
  (S n, fun i => byte_of_nat (n + i),
   if Nat.even n then None
   else Some (errorString "entropy source unavailable")).

(** Key generation that fails when asked to ([fail_gen]), peer ID
    derivation that fails on the key numbered 7, and a serialization that
    fails when asked to ([fail_marshal]). Keys are numbers. *)
Definition fake_GenerateKeyPair (fail_gen : bool) (typ bits : Z)
  : Identity.Gen nat (option nat * option nat * option error) :=
  fun n =>
    if fail_gen then (S n, (None, None, Some (errorString "no entropy")))
    else (S n, (Some n, Some n, None)).

Definition fake_IDFromPublicKey (pub : option nat) : string * option error :=
  match pub with
  | Some 7%nat => (EmptyString, Some (errorString "bad public key"))
  | Some _ => ("12D3KooW"%string, None)
  | None => (EmptyString, Some (errorString "nil public key"))
  end.

Definition fake_MarshalPrivateKey (fail_marshal : bool) (priv : option nat)
  : list Byte.byte * option error :=
  if fail_marshal then ([], Some (errorString "boom"))
  else ([byte_of_nat 8; byte_of_nat 1], None).

Definition fake_base64 (b : list Byte.byte) : string := Hex.EncodeToString b.

Definition fake_GenerateIdentity (fail_gen fail_marshal : bool)
  : Identity.Gen nat (string * string * option error) :=
  Identity.GenerateIdentity nat nat nat (fake_GenerateKeyPair fail_gen)
    fake_IDFromPublicKey (fake_MarshalPrivateKey fail_marshal) fake_base64.

Definition fake_NewKey (fail_gen : bool)
  : Identity.Gen nat (option nat * string * option error) :=
  Identity.NewKey nat nat nat (fake_GenerateKeyPair fail_gen)
    fake_IDFromPublicKey.

(** An apply backend over a world that counts the writes made to the
    cluster; a client is the list of the objects whose writes the cluster
    rejects. The backend runs the mutation; when that fails it reports
    the error, when the object is one the cluster rejects it reports
    [forbidden], and otherwise it writes the object. Objects are numbers;
    1 is named [A] and every other one [B]. *)
Definition fake_CreateOrPatch (client : list nat) (obj : nat)
    (mut : Sync.MutateFn nat) (w : nat)
  : nat * (Sync.OperationResult * option error) :=
  match mut w with
  | (w1, Some e) => (w1, ("unchanged"%string, Some e))
  | (w1, None) =>
      if existsb (Nat.eqb obj) client
      then (w1, ("unchanged"%string, Some (errorString "forbidden")))
      else (S w1, ("updated"%string, None))
  end.

Definition fake_GroupVersionKind (w : nat) (obj : nat)
  : Sync.GroupVersionKind :=
  Sync.mkGVK EmptyString "v1" "ConfigMap".

Definition fake_GetName (w : nat) (obj : nat) : string :=
  if Nat.eqb obj 1 then "A"%string else "B"%string.

(** Both mutations do nothing and succeed. *)
Definition mutA : Sync.MutateFn nat := Sync.ErrFunc None.
Definition mutB : Sync.MutateFn nat := Sync.ErrFunc None.

Definition trackedAB : gmap nat (Sync.MutateFn nat) :=
  <[1%nat := mutA]> (<[2%nat := mutB]> ∅).

(** The two orders in which the entries of [trackedAB] can come. *)
Definition orderAB : list (nat * Sync.MutateFn nat) :=
  [(1%nat, mutA); (2%nat, mutB)].
Definition orderBA : list (nat * Sync.MutateFn nat) :=
  [(2%nat, mutB); (1%nat, mutA)].

(** A client for which every write passes, and one for which the writes
    of [B] are rejected. *)
Definition permissive : list nat := [].
Definition rejectsB : list nat := [2%nat].

Definition fake_run (order : list (nat * Sync.MutateFn nat))
    (client : list nat) : bool * Sync.Effects :=
  Sync.CreateOrPatchTrackedObjects_in fake_GroupVersionKind fake_GetName
    fake_CreateOrPatch order client 0%nat.

End Fakes.

(** ** More concrete collaborators *)

Module MoreFakes.
Import Errors.

(** A mutation made by [ErrFunc] from an upstream error, and a collection
    that tracks it for object 3 beside the two of [Fakes.trackedAB]. *)
Definition mutFail : Sync.MutateFn nat :=
  Sync.ErrFunc (Some (errorString "upstream")).


(** A collection of one object. *)
Definition trackedC : gmap nat (Sync.MutateFn nat) := {[3%nat := mutFail]}.

End MoreFakes.

(** ** The backend's side of a run

    What the apply backend is asked and answers when the entries come in a
    given order, told from the backend alone: each call is answered in the
    world the call before it left, whether that call failed or not. *)

Module SyncSpec.
Import Errors Sync.

Section Backend.

Context {World Object : Type} {Client : Type}.
Variable GetObjectKind_GroupVersionKind : World -> Object -> GroupVersionKind.
Variable GetName : World -> Object -> string.
Variable CreateOrPatch :
  Client -> Object -> MutateFn World -> World ->
  World * (OperationResult * option error).

(** One call of the backend: the entry it is for, the world it is made in,
    and the backend's answer (the world after, the operation result, the
    error). *)
Record Apply := mkApply {
  apply_obj : Object;
  apply_mut : MutateFn World;
  apply_before : World;
  apply_after : World;
  apply_result : OperationResult;
  apply_err : option error
}.

Fixpoint backend_history (client : Client)
    (order : list (Object * MutateFn World)) (w : World) : list Apply :=
  match order with
  | [] => []
  | (obj, mut) :: rest =>
      let '(w', (result, err)) := CreateOrPatch client obj mut w in
      mkApply obj mut w w' result err :: backend_history client rest w'
  end.

(** The world the backend is left in. *)
Definition world_after (client : Client)
    (order : list (Object * MutateFn World)) (w : World) : World :=
  fold_left (fun w entry => fst (CreateOrPatch client (fst entry) (snd entry) w))
    order w.

Definition apply_entry (a : Apply) : Object * MutateFn World :=
  (apply_obj a, apply_mut a).

Definition apply_failed (a : Apply) : Prop := apply_err a <> None.

(** The call the function records for a call of the backend. *)
Definition call_of (a : Apply) : Call :=
  mkCall (apply_obj a) (apply_mut a) (apply_result a) (apply_err a).

(** The log record for a call of the backend (section 4.1 of the
    specification): the kind and the name the object had before the call
    and the operation result; an error record with the error when the
    call failed. *)
Definition record_of (a : Apply) : LogRecord :=
  let name := GetName (apply_before a) (apply_obj a) in
  let kind := GetObjectKind_GroupVersionKind (apply_before a) (apply_obj a) in
  match apply_err a with
  | Some e =>
      LogError e "error creating object"
        [("objname"%string, VString name);
         ("objKind"%string, VString (Kind kind));
         ("result"%string, VResult (apply_result a))]
  | None =>
      LogInfo "object changed"
        [("objName"%string, VString name);
         ("objKind"%string, VString (Kind kind));
         ("result"%string, VResult (apply_result a))]
  end.

End Backend.

End SyncSpec.

(** A cluster with a quota of one object: the world counts the objects
    written, a client is the list of the objects whose writes the cluster
    rejects, and a write that is not rejected fails once the quota is
    used up. *)

Module QuotaFake.
Import Errors.

Definition quota_CreateOrPatch (client : list nat) (obj : nat)
    (mut : Sync.MutateFn nat) (w : nat)
  : nat * (Sync.OperationResult * option error) :=
  match mut w with
  | (w1, Some e) => (w1, ("unchanged"%string, Some e))
  | (w1, None) =>
      if existsb (Nat.eqb obj) client
      then (w1, ("unchanged"%string, Some (errorString "forbidden")))
      else if Nat.leb 1 w1
      then (w1, ("unchanged"%string, Some (errorString "exceeded quota")))
      else (S w1, ("created"%string, None))
  end.

Definition quota_run (order : list (nat * Sync.MutateFn nat))
    (client : list nat) : bool * Sync.Effects :=
  Sync.CreateOrPatchTrackedObjects_in Fakes.fake_GroupVersionKind
    Fakes.fake_GetName quota_CreateOrPatch order client 0%nat.

End QuotaFake.

(** * Properties *)

(** ** int64 arithmetic without overflow *)

Module Int64Facts.
Import Int64.

Lemma wrap_small z : in_range z -> wrap z = z.
Proof.
  unfold in_range, min_int, max_int, wrap. intros Hz.
  rewrite Z.mod_small; lia.
Qed.

Lemma add_small x y : in_range (x + y) -> add x y = x + y.
Proof. apply wrap_small. Qed.

Lemma mul_small x y : in_range (x * y) -> mul x y = x * y.
Proof. apply wrap_small. Qed.

Lemma quo_nonzero x y : y <> 0 -> quo x y = Some (wrap (Z.quot x y)).
Proof. intros Hy. unfold quo. destruct (Z.eqb_spec y 0); [lia | reflexivity]. Qed.

End Int64Facts.

(** ** The resource profile *)

Module SizerFacts.
Import Resource Sizer SizerSpec.

Ltac unfold_range :=
  unfold Int64.in_range, Int64.min_int, Int64.max_int, Tebibyte in *.

(** An [int64] number of bytes is at most [2^23] tebibytes in magnitude. *)
Lemma quot_Tebibyte_bounds s :
  Int64.in_range s -> - 2 ^ 23 <= Z.quot s Tebibyte <= 2 ^ 23 - 1.
Proof. unfold_range. intros Hs. Z.to_euclidean_division_equations. lia. Qed.

Lemma quot_Tebibyte_mono s1 s2 :
  s1 <= s2 -> Z.quot s1 Tebibyte <= Z.quot s2 Tebibyte.
Proof. intros Hs. apply Z.quot_le_mono; [reflexivity | exact Hs]. Qed.

(** On non-negative sizes truncation and rounding down agree. *)
Lemma quot_Tebibyte_floor s : 0 <= s -> Z.quot s Tebibyte = storageTB s.
Proof.
  intros Hs. unfold storageTB. apply Z.quot_div_nonneg; [exact Hs | reflexivity].
Qed.

Lemma ramGBMin_bounds tb :
  - 2 ^ 23 <= tb <= 2 ^ 23 - 1 -> 1 <= ramGBMin tb <= 2 ^ 23.
Proof. unfold ramGBMin. destruct (Z.ltb_spec tb 2); lia. Qed.

Lemma ramGBMin_mono tb1 tb2 : tb1 <= tb2 -> ramGBMin tb1 <= ramGBMin tb2.
Proof.
  unfold ramGBMin. destruct (Z.ltb_spec tb1 2), (Z.ltb_spec tb2 2); lia.
Qed.

(** No operation of the body overflows or panics: on every [int64] input
    the function returns the profile of the truncated quotient. *)
Lemma IPFSContainerResources_in_range s :
  Int64.in_range s ->
  IPFSContainerResources s = Some (profile (Z.quot s Tebibyte)).
Proof.
  intros Hs. pose proof (quot_Tebibyte_bounds s Hs) as Htb.
  unfold IPFSContainerResources.
  rewrite Int64Facts.quo_nonzero by (unfold Tebibyte; lia).
  rewrite Int64Facts.wrap_small by (unfold_range; lia).
  set (tb := Z.quot s Tebibyte) in *.
  pose proof (ramGBMin_bounds tb Htb) as Hram.
  cbv zeta. fold (ramGBMin tb).
  rewrite (Int64Facts.mul_small 500 tb) by (unfold_range; lia).
  rewrite (Int64Facts.add_small 250) by (unfold_range; lia).
  rewrite (Int64Facts.mul_small 2 (ramGBMin tb)) by (unfold_range; lia).
  rewrite (Int64Facts.mul_small 2 (250 + 500 * tb)) by (unfold_range; lia).
  reflexivity.
Qed.

Lemma IPFSContainerResources_sizeFor s :
  0 <= s <= Int64.max_int ->
  IPFSContainerResources s = Some (sizeFor s).
Proof.
  intros Hs. rewrite IPFSContainerResources_in_range by (unfold_range; lia).
  unfold sizeFor. rewrite quot_Tebibyte_floor by lia. reflexivity.
Qed.

Lemma cpuRequest_profile tb :
  cpuRequest (profile tb) = Some (NewScaledQuantity (cpuMilliMin tb) Milli).
Proof. apply lookup_insert_eq. Qed.

Lemma cpuLimit_profile tb :
  cpuLimit (profile tb) = Some (NewScaledQuantity (2 * cpuMilliMin tb) Milli).
Proof. apply lookup_insert_eq. Qed.

Lemma memoryRequest_profile tb :
  memoryRequest (profile tb) = Some (NewScaledQuantity (ramGBMin tb) Giga).
Proof.
  unfold memoryRequest, profile; cbn [Requests].
  rewrite lookup_insert_ne by discriminate. apply lookup_insert_eq.
Qed.

Lemma memoryLimit_profile tb :
  memoryLimit (profile tb) = Some (NewScaledQuantity (2 * ramGBMin tb) Giga).
Proof.
  unfold memoryLimit, profile; cbn [Limits].
  rewrite lookup_insert_ne by discriminate. apply lookup_insert_eq.
Qed.

Lemma Quantity_le_same_scale v1 v2 sc :
  -3 <= sc -> v1 <= v2 ->
  Quantity_le (NewScaledQuantity v1 sc) (NewScaledQuantity v2 sc).
Proof.
  intros Hsc Hv. unfold Quantity_le, milli_units; cbn [value scale NewScaledQuantity].
  apply Z.mul_le_mono_nonneg_r; [apply Z.pow_nonneg; lia | exact Hv].
Qed.

Lemma profile_mono tb1 tb2 :
  tb1 <= tb2 -> profile_le (profile tb1) (profile tb2).
Proof.
  intros Htb. pose proof (ramGBMin_mono tb1 tb2 Htb) as Hram.
  unfold profile_le, component_le.
  rewrite !cpuRequest_profile, !cpuLimit_profile,
    !memoryRequest_profile, !memoryLimit_profile.
  repeat split; do 2 eexists; (split; [reflexivity | split; [reflexivity |]]);
    apply Quantity_le_same_scale; unfold Milli, Giga, cpuMilliMin; lia.
Qed.

(** The profiles of section 8 of the specification: no storage, one
    tebibyte, sixteen tebibytes. *)
Example IPFSContainerResources_0 :
  IPFSContainerResources 0 =
    Some {| Requests := <[ResourceCPU := NewScaledQuantity 250 Milli]>
                          (<[ResourceMemory := NewScaledQuantity 1 Giga]> ∅);
            Limits := <[ResourceCPU := NewScaledQuantity 500 Milli]>
                        (<[ResourceMemory := NewScaledQuantity 2 Giga]> ∅) |}.
Proof. reflexivity. Qed.

Example IPFSContainerResources_1TiB :
  IPFSContainerResources (2 ^ 40) =
    Some {| Requests := <[ResourceCPU := NewScaledQuantity 750 Milli]>
                          (<[ResourceMemory := NewScaledQuantity 1 Giga]> ∅);
            Limits := <[ResourceCPU := NewScaledQuantity 1500 Milli]>
                        (<[ResourceMemory := NewScaledQuantity 2 Giga]> ∅) |}.
Proof. reflexivity. Qed.

Example IPFSContainerResources_16TiB :
  IPFSContainerResources (16 * 2 ^ 40) =
    Some {| Requests := <[ResourceCPU := NewScaledQuantity 8250 Milli]>
                          (<[ResourceMemory := NewScaledQuantity 16 Giga]> ∅);
            Limits := <[ResourceCPU := NewScaledQuantity 16500 Milli]>
                        (<[ResourceMemory := NewScaledQuantity 32 Giga]> ∅) |}.
Proof. reflexivity. Qed.

(** A negative size: minus one tebibyte. *)
Example IPFSContainerResources_minus_1TiB :
  IPFSContainerResources (- 2 ^ 40) =
    Some {| Requests := <[ResourceCPU := NewScaledQuantity (-250) Milli]>
                          (<[ResourceMemory := NewScaledQuantity 1 Giga]> ∅);
            Limits := <[ResourceCPU := NewScaledQuantity (-500) Milli]>
                        (<[ResourceMemory := NewScaledQuantity 2 Giga]> ∅) |}.
Proof. reflexivity. Qed.

(** C2. For every non-negative [storageBytes], with
    [storageTB = floor(storageBytes / 2^40)] (which is also the truncated
    quotient), the CPU request is [250 + 500 * storageTB] millicores, the
    CPU limit is exactly twice the CPU request, and the memory limit is
    exactly twice the memory request. *)
Theorem IPFSContainerResources_cpu_and_limits (storageBytes : Z) :
  0 <= storageBytes <= Int64.max_int ->
  exists r,
    IPFSContainerResources storageBytes = Some r /\
    storageTB storageBytes = Z.quot storageBytes (2 ^ 40) /\
    cpuRequest r =
      Some (NewScaledQuantity (250 + 500 * storageTB storageBytes) Milli) /\
    cpuLimit r =
      Some (NewScaledQuantity (2 * (250 + 500 * storageTB storageBytes)) Milli) /\
    exists ram,
      memoryRequest r = Some (NewScaledQuantity ram Giga) /\
      memoryLimit r = Some (NewScaledQuantity (2 * ram) Giga).
Proof.
  intros Hs. exists (sizeFor storageBytes).
  split; [apply IPFSContainerResources_sizeFor, Hs |].
  split; [symmetry; apply quot_Tebibyte_floor; lia |].
  unfold sizeFor.
  rewrite cpuRequest_profile, cpuLimit_profile, memoryRequest_profile,
    memoryLimit_profile.
  repeat split. eexists; split; reflexivity.
Qed.

Lemma IPFSContainerResources_cpu_and_limits_witness :
  0 <= 3 * 2 ^ 40 + 5 <= Int64.max_int /\
  exists r,
    IPFSContainerResources (3 * 2 ^ 40 + 5) = Some r /\
    storageTB (3 * 2 ^ 40 + 5) = Z.quot (3 * 2 ^ 40 + 5) (2 ^ 40) /\
    cpuRequest r =
      Some (NewScaledQuantity (250 + 500 * storageTB (3 * 2 ^ 40 + 5)) Milli) /\
    cpuLimit r =
      Some (NewScaledQuantity
              (2 * (250 + 500 * storageTB (3 * 2 ^ 40 + 5))) Milli) /\
    exists ram,
      memoryRequest r = Some (NewScaledQuantity ram Giga) /\
      memoryLimit r = Some (NewScaledQuantity (2 * ram) Giga).
Proof.
  split; [unfold Int64.max_int; lia |].
  apply (IPFSContainerResources_cpu_and_limits (3 * 2 ^ 40 + 5)).
  unfold Int64.max_int; lia.
Defined.

(** C3. For every non-negative [storageBytes] the memory request is
    [storageTB] decimal gigabytes, except that below 2 it is 1 (not 2);
    one tebibyte gets a memory request of 1 decimal gigabyte and a CPU
    request of 750 millicores. *)
Theorem IPFSContainerResources_ram_clamp (storageBytes : Z) :
  0 <= storageBytes <= Int64.max_int ->
  (exists r,
     IPFSContainerResources storageBytes = Some r /\
     memoryRequest r =
       Some (NewScaledQuantity
               (if storageTB storageBytes <? 2 then 1
                else storageTB storageBytes) Giga)) /\
  (exists r q,
     IPFSContainerResources (2 ^ 40) = Some r /\
     memoryRequest r = Some q /\
     q = NewScaledQuantity 1 Giga /\
     milli_units q = 1000 * 10 ^ 9 /\
     cpuRequest r = Some (NewScaledQuantity 750 Milli)).
Proof.
  intros Hs. split.
  - exists (sizeFor storageBytes).
    split; [apply IPFSContainerResources_sizeFor, Hs |].
    apply memoryRequest_profile.
  - exists (sizeFor (2 ^ 40)), (NewScaledQuantity 1 Giga).
    split; [apply IPFSContainerResources_sizeFor; unfold Int64.max_int; lia |].
    repeat split.
Qed.

Lemma IPFSContainerResources_ram_clamp_witness :
  0 <= 2 ^ 41 - 1 <= Int64.max_int /\
  (exists r,
     IPFSContainerResources (2 ^ 41 - 1) = Some r /\
     memoryRequest r =
       Some (NewScaledQuantity
               (if storageTB (2 ^ 41 - 1) <? 2 then 1
                else storageTB (2 ^ 41 - 1)) Giga)) /\
  (exists r q,
     IPFSContainerResources (2 ^ 40) = Some r /\
     memoryRequest r = Some q /\
     q = NewScaledQuantity 1 Giga /\
     milli_units q = 1000 * 10 ^ 9 /\
     cpuRequest r = Some (NewScaledQuantity 750 Milli)).
Proof.
  split; [unfold Int64.max_int; lia |].
  apply (IPFSContainerResources_ram_clamp (2 ^ 41 - 1)).
  unfold Int64.max_int; lia.
Defined.

(** C4. For all non-negative storage sizes [s1 < s2], each of the CPU
    request, CPU limit, memory request and memory limit computed for [s1]
    is at most the corresponding one computed for [s2]. *)
Theorem IPFSContainerResources_monotone (s1 s2 : Z) :
  0 <= s1 -> s1 < s2 -> s2 <= Int64.max_int ->
  exists r1 r2,
    IPFSContainerResources s1 = Some r1 /\
    IPFSContainerResources s2 = Some r2 /\
    profile_le r1 r2.
Proof.
  intros H0 H12 Hmax.
  exists (profile (Z.quot s1 Tebibyte)), (profile (Z.quot s2 Tebibyte)).
  split; [apply IPFSContainerResources_in_range; unfold_range; lia |].
  split; [apply IPFSContainerResources_in_range; unfold_range; lia |].
  apply profile_mono, quot_Tebibyte_mono. lia.
Qed.

Lemma IPFSContainerResources_monotone_witness :
  0 <= 2 ^ 40 - 1 /\ 2 ^ 40 - 1 < 5 * 2 ^ 40 /\ 5 * 2 ^ 40 <= Int64.max_int /\
  exists r1 r2,
    IPFSContainerResources (2 ^ 40 - 1) = Some r1 /\
    IPFSContainerResources (5 * 2 ^ 40) = Some r2 /\
    profile_le r1 r2.
Proof.
  split; [lia |]. split; [lia |]. split; [unfold Int64.max_int; lia |].
  apply (IPFSContainerResources_monotone (2 ^ 40 - 1) (5 * 2 ^ 40));
    unfold Int64.max_int; lia.
Defined.

(** C10. On every [int64] input, negative ones included, the function
    returns a profile (it does not panic); whenever the local
    [ipfsStorageTB] is below 2, which is the case for every negative
    input, the memory request is exactly 1 decimal gigabyte and the memory
    limit exactly 2; and there are negative inputs for which the CPU
    request is negative. *)
Theorem IPFSContainerResources_total (storageBytes : Z) :
  Int64.in_range storageBytes ->
  (exists r tb,
     IPFSContainerResources storageBytes = Some r /\
     Int64.quo storageBytes Tebibyte = Some tb /\
     (storageBytes < 0 -> tb < 2) /\
     (tb < 2 ->
      memoryRequest r = Some (NewScaledQuantity 1 Giga) /\
      memoryLimit r = Some (NewScaledQuantity 2 Giga))) /\
  (exists s r q,
     Int64.in_range s /\ s < 0 /\
     IPFSContainerResources s = Some r /\
     cpuRequest r = Some q /\ value q < 0).
Proof.
  intros Hs. split.
  - exists (profile (Z.quot storageBytes Tebibyte)), (Z.quot storageBytes Tebibyte).
    pose proof (quot_Tebibyte_bounds storageBytes Hs) as Htb.
    split; [apply IPFSContainerResources_in_range, Hs |].
    split.
    { rewrite Int64Facts.quo_nonzero by (unfold Tebibyte; lia).
      rewrite Int64Facts.wrap_small by (unfold_range; lia). reflexivity. }
    split.
    { intros Hneg. pose proof (quot_Tebibyte_mono storageBytes 0 ltac:(lia)) as Hle.
      change (Z.quot 0 Tebibyte) with 0 in Hle. lia. }
    intros Hlt. rewrite memoryRequest_profile, memoryLimit_profile.
    unfold ramGBMin. destruct (Z.ltb_spec (Z.quot storageBytes Tebibyte) 2); [| lia].
    split; reflexivity.
  - exists (- 2 ^ 40), (profile (-1)), (NewScaledQuantity (-250) Milli).
    split; [unfold_range; lia |]. split; [lia |].
    split; [apply (IPFSContainerResources_in_range (- 2 ^ 40)); unfold_range; lia |].
    split; [reflexivity | cbn; lia].
Qed.

Lemma IPFSContainerResources_total_witness :
  Int64.in_range (- 2 ^ 63) /\
  (exists r tb,
     IPFSContainerResources (- 2 ^ 63) = Some r /\
     Int64.quo (- 2 ^ 63) Tebibyte = Some tb /\
     (- 2 ^ 63 < 0 -> tb < 2) /\
     (tb < 2 ->
      memoryRequest r = Some (NewScaledQuantity 1 Giga) /\
      memoryLimit r = Some (NewScaledQuantity 2 Giga))) /\
  (exists s r q,
     Int64.in_range s /\ s < 0 /\
     IPFSContainerResources s = Some r /\
     cpuRequest r = Some q /\ value q < 0).
Proof.
  split; [unfold_range; lia |].
  apply (IPFSContainerResources_total (- 2 ^ 63)). unfold_range; lia.
Defined.

End SizerFacts.

(** ** Hexadecimal encoding *)

Module HexFacts.
Import Hex.

Lemma EncodeToString_length src :
  String.length (EncodeToString src) = (2 * length src)%nat.
Proof. induction src as [| v rest IH]; cbn [EncodeToString String.length length]; lia. Qed.

Lemma hexdigit_hi_lower v :
  is_lower_hex (hexdigit (N.shiftr (Byte.to_N v) 4)) = true.
Proof. destruct v; reflexivity. Qed.

Lemma hexdigit_lo_lower v :
  is_lower_hex (hexdigit (N.land (Byte.to_N v) 15)) = true.
Proof. destruct v; reflexivity. Qed.

Lemma EncodeToString_lower src :
  all_chars is_lower_hex (EncodeToString src) = true.
Proof.
  induction src as [| v rest IH]; [reflexivity |].
  cbn [EncodeToString all_chars].
  rewrite hexdigit_hi_lower, hexdigit_lo_lower, IH. reflexivity.
Qed.

(** Decoding the two digits of a byte gives the byte back. *)
Lemma decode_digits v :
  match fromHexChar (hexdigit (N.shiftr (Byte.to_N v) 4)),
        fromHexChar (hexdigit (N.land (Byte.to_N v) 15)) with
  | Some a, Some b => Byte.of_N (N.lor (N.shiftl a 4) b)
  | _, _ => None
  end = Some v.
Proof. destruct v; reflexivity. Qed.

Lemma DecodeString_EncodeToString src :
  DecodeString (EncodeToString src) = Some src.
Proof.
  induction src as [| v rest IH]; [reflexivity |].
  cbn [EncodeToString DecodeString]. rewrite IH.
  pose proof (decode_digits v) as Hv.
  destruct (fromHexChar (hexdigit (N.shiftr (Byte.to_N v) 4))); [| discriminate].
  destruct (fromHexChar (hexdigit (N.land (Byte.to_N v) 15))); [| discriminate].
  rewrite Hv. reflexivity.
Qed.

Lemma all_chars_impl (p q : ascii -> bool) s :
  (forall c, p c = true -> q c = true) ->
  all_chars p s = true -> all_chars q s = true.
Proof.
  intros Hpq. induction s as [| c rest IH]; [reflexivity |].
  cbn [all_chars]. intros [Hc Hrest]%andb_prop.
  rewrite (Hpq c Hc), (IH Hrest). reflexivity.
Qed.

End HexFacts.

(** ** Secrets and identities *)

Module IdentityFacts.
Import Errors Hex Identity.

Lemma lower_hex_not_newline c :
  is_lower_hex c = true -> negb (Ascii.eqb c newline) = true.
Proof.
  destruct c as [[] [] [] [] [] [] [] []]; intros Hc;
    first [reflexivity | discriminate Hc].
Qed.

Lemma lines_no_newline s :
  all_chars (fun c => negb (Ascii.eqb c newline)) s = true -> lines s = [s].
Proof.
  induction s as [| c rest IH]; [reflexivity |].
  cbn [all_chars lines]. intros [Hc Hrest]%andb_prop.
  apply negb_true_iff in Hc. rewrite Hc, (IH Hrest). reflexivity.
Qed.

Lemma lines_app_newline a rest :
  all_chars (fun c => negb (Ascii.eqb c newline)) a = true ->
  lines (a +:+ String newline rest) = a :: lines rest.
Proof.
  induction a as [| c a' IH]; simpl.
  - intros _. reflexivity.
  - intros [Hc Ha]%andb_prop. apply negb_true_iff in Hc.
    rewrite Hc, (IH Ha). reflexivity.
Qed.

Section WithRandomSource.

Variable Reader : Type.
Variable rand_Read : Reader -> nat -> Reader * (nat -> Byte.byte) * option error.

Lemma randomKey_success len r r' written :
  rand_Read r len = (r', written, None) ->
  randomKey Reader rand_Read len r = (r', (map written (seq 0 len), None)).
Proof.
  intros Hread. unfold randomKey, bind, Read.
  rewrite repeat_length, Hread. reflexivity.
Qed.

Lemma randomKey_failure len r r' written e :
  rand_Read r len = (r', written, Some e) ->
  randomKey Reader rand_Read len r = (r', ([], Some e)).
Proof.
  intros Hread. unfold randomKey, bind, Read.
  rewrite repeat_length, Hread. reflexivity.
Qed.

Lemma fresh_bytes_length (written : nat -> Byte.byte) len :
  length (map written (seq 0 len)) = len.
Proof. rewrite length_map, length_seq. reflexivity. Qed.

(** C6. Whenever the read of the random source succeeds, [NewSwarmKey]
    returns, without error, the text made of three lines joined by
    newline characters: [/key/swarm/psk/1.0.0], [/base16/], and 64
    lowercase hexadecimal characters that encode the 32 bytes read. *)
Theorem NewSwarmKey_format r r' written :
  rand_Read r 32%nat = (r', written, None) ->
  exists buf key,
    buf = map written (seq 0 32) /\ length buf = 32%nat /\
    key = EncodeToString buf /\
    NewSwarmKey Reader rand_Read r =
      (r', ("/key/swarm/psk/1.0.0" +:+
            String newline ("/base16/" +:+ String newline key), None)) /\
    lines ("/key/swarm/psk/1.0.0" +:+
           String newline ("/base16/" +:+ String newline key)) =
      ["/key/swarm/psk/1.0.0"%string; "/base16/"%string; key] /\
    String.length key = 64%nat /\
    all_chars is_lower_hex key = true /\
    DecodeString key = Some buf.
Proof.
  intros Hread.
  exists (map written (seq 0 32)), (EncodeToString (map written (seq 0 32))).
  split; [reflexivity |]. split; [apply fresh_bytes_length |].
  split; [reflexivity |].
  split.
  { unfold NewSwarmKey, bind.
    rewrite (randomKey_success _ _ _ _ Hread). reflexivity. }
  split.
  { rewrite lines_app_newline by reflexivity.
    rewrite lines_app_newline by reflexivity.
    rewrite lines_no_newline; [reflexivity |].
    eapply HexFacts.all_chars_impl; [apply lower_hex_not_newline |].
    apply HexFacts.EncodeToString_lower. }
  split.
  { rewrite HexFacts.EncodeToString_length, fresh_bytes_length. reflexivity. }
  split; [apply HexFacts.EncodeToString_lower |].
  apply HexFacts.DecodeString_EncodeToString.
Qed.

(** C7. [NewClusterSecret] reads the random source once. When the read
    succeeds it returns, without error, 64 lowercase hexadecimal
    characters that encode the 32 bytes read; when the read fails it
    returns the empty string and that very error, and the source is in
    the state that single read left it in (no second read). *)
Theorem NewClusterSecret_result r r' written err :
  rand_Read r 32%nat = (r', written, err) ->
  match err with
  | None =>
      exists buf secret,
        buf = map written (seq 0 32) /\ length buf = 32%nat /\
        NewClusterSecret Reader rand_Read r = (r', (secret, None)) /\
        secret = EncodeToString buf /\
        String.length secret = 64%nat /\
        all_chars is_lower_hex secret = true /\
        DecodeString secret = Some buf
  | Some e =>
      NewClusterSecret Reader rand_Read r = (r', (EmptyString, Some e))
  end.
Proof.
  intros Hread. destruct err as [e |].
  - unfold NewClusterSecret, bind.
    rewrite (randomKey_failure _ _ _ _ _ Hread). reflexivity.
  - exists (map written (seq 0 32)), (EncodeToString (map written (seq 0 32))).
    split; [reflexivity |]. split; [apply fresh_bytes_length |].
    split.
    { unfold NewClusterSecret, bind.
      rewrite (randomKey_success _ _ _ _ Hread). reflexivity. }
    split; [reflexivity |].
    split.
    { rewrite HexFacts.EncodeToString_length, fresh_bytes_length. reflexivity. }
    split; [apply HexFacts.EncodeToString_lower |].
    apply HexFacts.DecodeString_EncodeToString.
Qed.

End WithRandomSource.

Section WithLibp2p.

Variable Reader : Type.
Variable privkey pubkey : Type.
Variable GenerateKeyPair :
  Z -> Z -> Gen Reader (option privkey * option pubkey * option error).
Variable IDFromPublicKey : option pubkey -> string * option error.
Variable MarshalPrivateKey : option privkey -> list Byte.byte * option error.
Variable base64_EncodeToString : list Byte.byte -> string.

Local Abbreviation NewKey :=
  (NewKey Reader privkey pubkey GenerateKeyPair IDFromPublicKey).
Local Abbreviation GenerateIdentity :=
  (GenerateIdentity Reader privkey pubkey GenerateKeyPair IDFromPublicKey
     MarshalPrivateKey base64_EncodeToString).
Local Abbreviation step_fails :=
  (step_fails Reader privkey pubkey GenerateKeyPair IDFromPublicKey
     MarshalPrivateKey).

(** [NewKey] hands on the error of whichever of its two steps fails,
    unchanged. *)
Lemma NewKey_propagates r r' priv pub err :
  GenerateKeyPair Ed25519 4096 r = (r', (priv, pub, err)) ->
  NewKey r =
    match err with
    | Some e => (r', (None, EmptyString, Some e))
    | None =>
        match IDFromPublicKey pub with
        | (_, Some e) => (r', (None, EmptyString, Some e))
        | (peerid, None) => (r', (priv, peerid, None))
        end
    end.
Proof.
  intros Hgen. unfold Identity.NewKey, bind. rewrite Hgen.
  destruct err as [e |]; [reflexivity |].
  destruct (IDFromPublicKey pub) as [peerid [e |]]; reflexivity.
Qed.

Lemma Errorf_w_unwrap prefix cause :
  Unwrap (Errorf_w prefix cause) = Some cause /\
  in_chain cause (Errorf_w prefix cause) /\
  Error (Errorf_w prefix cause) = prefix +:+ Error cause.
Proof.
  split; [reflexivity |]. split; [| reflexivity].
  right. destruct cause; left; reflexivity.
Qed.

(** C8, as the code has it. Whenever a step of [GenerateIdentity] fails,
    no identity is returned and the returned error wraps the underlying
    error, which [Unwrap] gives back, with a message made of the step's
    context followed by the underlying message: the context is
    [cannot generate new key] when [NewKey] fails and
    [cannot get bytes from private key] when serializing the private key
    fails. *)
Theorem GenerateIdentity_error_context r step cause r' :
  step_fails r step cause r' ->
  exists e,
    GenerateIdentity r = (r', (EmptyString, EmptyString, Some e)) /\
    Unwrap e = Some cause /\
    in_chain cause e /\
    Error e =
      match step with
      | KeyGeneration => "cannot generate new key: "
      | Serialization => "cannot get bytes from private key: "
      end +:+ Error cause.
Proof.
  intros [r1 privateKey peerid c Hkey
         | r1 privateKey peerid privBytes c Hkey Hmarshal].
  - exists (Errorf_w "cannot generate new key: " c).
    split; [| apply Errorf_w_unwrap].
    unfold Identity.GenerateIdentity, bind. rewrite Hkey. reflexivity.
  - exists (Errorf_w "cannot get bytes from private key: " c).
    split; [| apply Errorf_w_unwrap].
    unfold Identity.GenerateIdentity, bind. rewrite Hkey, Hmarshal. reflexivity.
Qed.

(** When no step fails the identity is returned without error. *)
Lemma GenerateIdentity_success r r' privateKey peerid privBytes :
  NewKey r = (r', (privateKey, peerid, None)) ->
  MarshalPrivateKey privateKey = (privBytes, None) ->
  GenerateIdentity r = (r', (peerid, base64_EncodeToString privBytes, None)).
Proof.
  intros Hkey Hmarshal.
  unfold Identity.GenerateIdentity, bind. rewrite Hkey, Hmarshal. reflexivity.
Qed.

End WithLibp2p.

(** The counting source read in state 0 writes the bytes 0 to 31. *)
Example NewClusterSecret_counting :
  NewClusterSecret nat Fakes.counting_Read 0%nat =
    (1%nat,
     ("000102030405060708090a0b0c0d0e0f101112131415161718191a1b1c1d1e1f"%string,
      None)).
Proof. reflexivity. Qed.

Example GenerateIdentity_fake_success :
  Fakes.fake_GenerateIdentity false false 0%nat =
    (1%nat, ("12D3KooW"%string, "0801"%string, None)).
Proof. reflexivity. Qed.

Lemma NewSwarmKey_format_witness :
  Fakes.counting_Read 0 32 =
    (1%nat, (fun i => Fakes.byte_of_nat (0 + i)), None) /\
  exists buf key,
    buf = map (fun i => Fakes.byte_of_nat (0 + i)) (seq 0 32) /\
    length buf = 32%nat /\
    key = EncodeToString buf /\
    NewSwarmKey nat Fakes.counting_Read 0%nat =
      (1%nat, ("/key/swarm/psk/1.0.0" +:+
               String newline ("/base16/" +:+ String newline key), None)) /\
    lines ("/key/swarm/psk/1.0.0" +:+
           String newline ("/base16/" +:+ String newline key)) =
      ["/key/swarm/psk/1.0.0"%string; "/base16/"%string; key] /\
    String.length key = 64%nat /\
    all_chars is_lower_hex key = true /\
    DecodeString key = Some buf.
Proof.
  split; [reflexivity |].
  apply (NewSwarmKey_format nat Fakes.counting_Read 0%nat 1%nat
           (fun i => Fakes.byte_of_nat (0 + i))).
  reflexivity.
Defined.

(** The read in state 1 of the counting source fails: the error comes back
    as it is and the source has been read once. *)
Lemma NewClusterSecret_result_witness :
  Fakes.counting_Read 1 32 =
    (2%nat, (fun i => Fakes.byte_of_nat (1 + i)),
     Some (errorString "entropy source unavailable")) /\
  NewClusterSecret nat Fakes.counting_Read 1%nat =
    (2%nat, (EmptyString, Some (errorString "entropy source unavailable"))).
Proof.
  split; [reflexivity |].
  apply (NewClusterSecret_result nat Fakes.counting_Read 1%nat 2%nat
           (fun i => Fakes.byte_of_nat (1 + i))
           (Some (errorString "entropy source unavailable"))).
  reflexivity.
Defined.

Lemma GenerateIdentity_error_context_witness :
  step_fails nat nat nat (Fakes.fake_GenerateKeyPair false)
    Fakes.fake_IDFromPublicKey (Fakes.fake_MarshalPrivateKey true)
    0%nat Serialization (errorString "boom") 1%nat /\
  exists e,
    Fakes.fake_GenerateIdentity false true 0%nat =
      (1%nat, (EmptyString, EmptyString, Some e)) /\
    Unwrap e = Some (errorString "boom") /\
    in_chain (errorString "boom") e /\
    Error e = "cannot get bytes from private key: boom"%string.
Proof.
  assert (Hfails :
    step_fails nat nat nat (Fakes.fake_GenerateKeyPair false)
      Fakes.fake_IDFromPublicKey (Fakes.fake_MarshalPrivateKey true)
      0%nat Serialization (errorString "boom") 1%nat).
  { apply (MarshalPrivateKey_fails nat nat nat _ _ _ 0%nat 1%nat
             (Some 0%nat) "12D3KooW"%string []); reflexivity. }
  split; [exact Hfails |].
  exact (GenerateIdentity_error_context nat nat nat
           (Fakes.fake_GenerateKeyPair false) Fakes.fake_IDFromPublicKey
           (Fakes.fake_MarshalPrivateKey true) Fakes.fake_base64
           0%nat Serialization (errorString "boom") 1%nat Hfails).
Defined.

(** C8 as the specification words it fails: when serializing the private
    key fails, the returned error wraps the cause, but its message is
    [cannot get bytes from private key: boom] and does not contain
    [cannot serialize private key]. *)
Lemma GenerateIdentity_serialize_context_counterexample :
  exists e cause,
    Fakes.fake_NewKey false 0%nat =
      (1%nat, (Some 0%nat, "12D3KooW"%string, None)) /\
    Fakes.fake_MarshalPrivateKey true (Some 0%nat) = ([], Some cause) /\
    Fakes.fake_GenerateIdentity false true 0%nat =
      (1%nat, (EmptyString, EmptyString, Some e)) /\
    Unwrap e = Some cause /\
    Error e = "cannot get bytes from private key: boom"%string /\
    spec_context Serialization = "cannot serialize private key"%string /\
    mentions (spec_context Serialization) e = false.
Proof.
  exists (Errorf_w "cannot get bytes from private key: " (errorString "boom")),
    (errorString "boom").
  repeat split.
Qed.

End IdentityFacts.

(** ** The batch of tracked objects *)

Module SyncFacts.
Import Errors Sync SyncSpec.

Section Backend.

Context {World Object : Type} `{Countable Object} {Client : Type}.
Variable GetObjectKind_GroupVersionKind : World -> Object -> GroupVersionKind.
Variable GetName : World -> Object -> string.
Variable CreateOrPatch :
  Client -> Object -> MutateFn World -> World ->
  World * (OperationResult * option error).

Local Abbreviation loop_body :=
  (loop_body GetObjectKind_GroupVersionKind GetName CreateOrPatch).
Local Abbreviation range_loop :=
  (range_loop GetObjectKind_GroupVersionKind GetName CreateOrPatch).
Local Abbreviation run_in :=
  (CreateOrPatchTrackedObjects_in GetObjectKind_GroupVersionKind GetName
     CreateOrPatch).
Local Abbreviation run :=
  (CreateOrPatchTrackedObjects GetObjectKind_GroupVersionKind GetName
     CreateOrPatch).
Local Abbreviation genuine := (genuine CreateOrPatch).
Local Abbreviation Call := (@Call World Object).
Local Abbreviation Effects := (@Effects World Object).
Local Abbreviation history := (backend_history CreateOrPatch).
Local Abbreviation world_after := (world_after CreateOrPatch).
Local Abbreviation record_of :=
  (record_of GetObjectKind_GroupVersionKind GetName).
Local Abbreviation Apply := (@Apply World Object).

(** One iteration: one call, made for the entry at hand, carrying the
    backend's answer; one record logged; the flag is raised exactly
    when the call failed, and never lowered. *)
Lemma loop_body_spec client obj mut requeue st :
  exists c r,
    snd (loop_body client obj mut requeue st) =
      {| world := fst (CreateOrPatch client obj mut (world st));
         calls := calls st ++ [c];
         logged := logged st ++ [r] |} /\
    call_entry c = (obj, mut) /\
    (call_result c, call_err c) =
      snd (CreateOrPatch client obj mut (world st)) /\
    is_LogError r = bool_decide (call_failed c) /\
    fst (loop_body client obj mut requeue st) =
      (requeue || bool_decide (call_failed c)).
Proof.
  unfold Sync.loop_body.
  destruct (CreateOrPatch client obj mut (world st)) as [w [result [e |]]];
    eexists (mkCall obj mut result _), _; cbn.
  - repeat split. rewrite orb_true_r. reflexivity.
  - repeat split. rewrite orb_false_r. reflexivity.
Qed.

Lemma range_loop_spec client order : forall requeue st,
  exists cs rs,
    calls (snd (range_loop client order requeue st)) = calls st ++ cs /\
    logged (snd (range_loop client order requeue st)) = logged st ++ rs /\
    map call_entry cs = order /\
    Forall (genuine client) cs /\
    map is_LogError rs = map (fun c => bool_decide (call_failed c)) cs /\
    fst (range_loop client order requeue st) =
      (requeue || existsb (fun c => bool_decide (call_failed c)) cs).
Proof.
  induction order as [| [obj mut] rest IH]; intros requeue st.
  - exists [], []. cbn. rewrite !app_nil_r, orb_false_r. repeat split. constructor.
  - cbn [Sync.range_loop].
    destruct (loop_body_spec client obj mut requeue st)
      as (c & r & Hst & Hentry & Hans & Hlog & Hflag).
    destruct (loop_body client obj mut requeue st) as [requeue1 st1].
    cbn [fst snd] in Hst, Hflag. subst requeue1.
    destruct (IH (requeue || bool_decide (call_failed c)) st1)
      as (cs & rs & Hcs & Hrs & Hmap & Hgen & Hlogs & Hrq).
    assert (Hc : genuine client c).
    { exists (world st). injection Hentry as -> ->. symmetry. exact Hans. }
    exists (c :: cs), (r :: rs).
    rewrite Hcs, Hrs, Hrq, Hst. cbn [calls logged map existsb].
    rewrite <- !app_assoc. cbn [app].
    rewrite Hentry, Hmap, Hlog, Hlogs, orb_assoc.
    repeat split. constructor; assumption.
Qed.


Lemma existsb_failed (cs : list Call) :
  existsb (fun c : Call => bool_decide (call_failed c)) cs = true <->
  Exists call_failed cs.
Proof.
  induction cs as [| c cs IH]; cbn [existsb].
  - split; [discriminate | intros Hex; inversion Hex].
  - rewrite orb_true_iff, IH, bool_decide_eq_true, Exists_cons. reflexivity.
Qed.

(** What every run is made of. *)
Lemma run_spec m client w out :
  run m client w out ->
  map call_entry (calls (snd out)) ≡ₚ map_to_list m /\
  Forall (genuine client) (calls (snd out)) /\
  map is_LogError (logged (snd out)) =
    map (fun c => bool_decide (call_failed c)) (calls (snd out)) /\
  fst out = existsb (fun c => bool_decide (call_failed c)) (calls (snd out)).
Proof.
  intros (order & Horder & ->). unfold range_order in Horder.
  unfold Sync.CreateOrPatchTrackedObjects_in.
  destruct (range_loop_spec client order false (mkEffects w [] []))
    as (cs & rs & Hcs & Hrs & Hmap & Hgen & Hlogs & Hrq).
  cbn [calls logged app orb] in Hcs, Hrs, Hrq.
  rewrite Hcs, Hrs, Hrq. rewrite Hmap. repeat split; assumption.
Qed.

(** The function returns, whatever the backend does. *)
Lemma run_exists m client w : exists out, run m client w out.
Proof.
  exists (run_in (map_to_list m) client w), (map_to_list m).
  split; [unfold range_order; reflexivity | reflexivity].
Qed.

Lemma calls_NoDup m client w out :
  run m client w out -> NoDup (map call_obj (calls (snd out))).
Proof.
  intros Hrun. destruct (run_spec _ _ _ _ Hrun) as (Hperm & _).
  assert (Hobj : map call_obj (calls (snd out)) =
                 map fst (map call_entry (calls (snd out)))).
  { rewrite map_map. reflexivity. }
  rewrite Hobj, Hperm. apply NoDup_fst_map_to_list.
Qed.

(** The outcome recorded for a tracked object is the backend's answer to
    the call made for that object with its own mutation. *)
Lemma outcome_of_run m client w out obj mut :
  run m client w out -> m !! obj = Some mut ->
  exists wa,
    outcome_of obj (snd out) = Some (snd (CreateOrPatch client obj mut wa)).
Proof.
  intros Hrun Hm. destruct (run_spec _ _ _ _ Hrun) as (Hperm & Hgen & _).
  unfold outcome_of.
  destruct (find _ (calls (snd out))) as [c |] eqn:Hfind.
  - apply find_some in Hfind as [Hin Hc].
    apply bool_decide_eq_true in Hc.
    assert (Hentry : call_entry c ∈ map_to_list m).
    { rewrite <- Hperm. apply list_elem_of_In, in_map, Hin. }
    unfold call_entry in Hentry. rewrite Hc in Hentry.
    apply elem_of_map_to_list in Hentry.
    rewrite Hm in Hentry. injection Hentry as Hmut.
    rewrite Forall_forall in Hgen.
    destruct (Hgen c (proj2 (list_elem_of_In _ _) Hin)) as [wa Hwa].
    exists wa. rewrite <- Hc, Hmut, Hwa. reflexivity.
  - exfalso.
    assert (Hentry : (obj, mut) ∈ map call_entry (calls (snd out))).
    { rewrite Hperm. apply elem_of_map_to_list, Hm. }
    apply list_elem_of_In, in_map_iff in Hentry as (c & Hc & Hin).
    pose proof (find_none _ _ Hfind c Hin) as Hno. cbn beta in Hno.
    apply bool_decide_eq_false in Hno. apply Hno.
    unfold call_entry in Hc. congruence.
Qed.


Lemma run_in_calls order client w :
  map call_entry (calls (snd (run_in order client w))) = order.
Proof.
  unfold Sync.CreateOrPatchTrackedObjects_in.
  destruct (range_loop_spec client order false (mkEffects w [] []))
    as (cs & rs & Hcs & _ & Hmap & _).
  cbn [calls app] in Hcs. rewrite Hcs. exact Hmap.
Qed.

Lemma history_entries client order : forall w,
  map apply_entry (history client order w) = order.
Proof.
  induction order as [| [obj mut] rest IH]; intros w; [reflexivity |].
  cbn [backend_history].
  destruct (CreateOrPatch client obj mut w) as [w' [result err]].
  cbn [map]. rewrite IH. reflexivity.
Qed.

Lemma history_app client order1 order2 : forall w,
  history client (order1 ++ order2) w =
    history client order1 w ++ history client order2 (world_after client order1 w).
Proof.
  induction order1 as [| [obj mut] rest IH]; intros w; [reflexivity |].
  cbn [app backend_history]. unfold SyncSpec.world_after. cbn [fold_left fst snd].
  destruct (CreateOrPatch client obj mut w) as [w' [result err]].
  cbn [fst]. rewrite IH. reflexivity.
Qed.

Lemma existsb_apply_failed (h : list Apply) :
  existsb (fun a => bool_decide (apply_failed a)) h = true <->
  Exists apply_failed h.
Proof.
  induction h as [| a h IH]; cbn [existsb].
  - split; [discriminate | intros Hex; inversion Hex].
  - rewrite orb_true_iff, IH, bool_decide_eq_true, Exists_cons. reflexivity.
Qed.

(** The loop, told from the backend: it makes the backend's calls in the
    order of the entries, each in the world the call before left, records
    them, logs one record for each, and raises the flag when one fails. *)
Lemma range_loop_history client order : forall requeue (st : Effects),
  range_loop client order requeue st =
    (requeue ||
       existsb (fun a => bool_decide (apply_failed a))
         (history client order (world st)),
     {| world := world_after client order (world st);
        calls := calls st ++ map call_of (history client order (world st));
        logged := logged st ++ map record_of (history client order (world st)) |}).
Proof.
  induction order as [| [obj mut] rest IH]; intros requeue st.
  - cbn. rewrite orb_false_r, !app_nil_r. destruct st; reflexivity.
  - cbn [Sync.range_loop backend_history]. unfold Sync.loop_body.
    unfold SyncSpec.world_after. cbn [fold_left fst snd].
    destruct (CreateOrPatch client obj mut (world st)) as [w' [result [e |]]];
      cbv zeta; rewrite IH; cbn [world calls logged map existsb fst];
      unfold SyncSpec.record_of, call_of, apply_failed;
      cbn [apply_obj apply_mut apply_before apply_result apply_err];
      rewrite <- !app_assoc; cbn [app].
    + rewrite (bool_decide_eq_true_2 (Some e <> None)) by discriminate.
      rewrite orb_true_r. reflexivity.
    + rewrite (bool_decide_eq_false_2 (@None error <> None)) by (intros Hn; apply Hn; reflexivity).
      rewrite orb_false_l. reflexivity.
Qed.

Lemma run_in_history order client w :
  run_in order client w =
    (existsb (fun a => bool_decide (apply_failed a)) (history client order w),
     {| world := world_after client order w;
        calls := map call_of (history client order w);
        logged := map record_of (history client order w) |}).
Proof.
  unfold Sync.CreateOrPatchTrackedObjects_in. cbv zeta.
  rewrite range_loop_history. reflexivity.
Qed.

Lemma find_call_skip obj (h1 h2 : list Apply) :
  ~ In obj (map apply_obj h1) ->
  find (fun c : Call => bool_decide (call_obj c = obj)) (map call_of (h1 ++ h2)) =
  find (fun c : Call => bool_decide (call_obj c = obj)) (map call_of h2).
Proof.
  induction h1 as [| a h1 IH]; intros Hnot; [reflexivity |].
  cbn [app map find]. cbn [map] in Hnot.
  rewrite bool_decide_eq_false_2.
  - apply IH. intros Hin. apply Hnot. right. exact Hin.
  - cbn. intros Heq. apply Hnot. left. exact Heq.
Qed.

(** The outcome recorded for a tracked object is the backend's answer to
    the call for that object, in the world the calls for the entries
    yielded before it left. *)
Lemma outcome_of_history order client w obj mut before after :
  NoDup (map fst order) ->
  order = before ++ (obj, mut) :: after ->
  outcome_of obj (snd (run_in order client w)) =
    Some (snd (CreateOrPatch client obj mut (world_after client before w))).
Proof.
  intros Hnodup ->. rewrite run_in_history. cbn [snd calls].
  unfold outcome_of; cbn [calls].
  rewrite history_app, find_call_skip.
  - cbn [backend_history].
    destruct (CreateOrPatch client obj mut (world_after client before w))
      as [w' [result err]].
    cbn [map find call_of call_obj apply_obj].
    rewrite bool_decide_eq_true_2 by reflexivity. reflexivity.
  - rewrite map_app in Hnodup. apply NoDup_app in Hnodup as (_ & Hdisj & _).
    assert (Hobjs : map apply_obj (history client before w) = map fst before).
    { rewrite <- (history_entries client before w) at 2.
      rewrite map_map. reflexivity. }
    rewrite Hobjs. intros Hin. apply (Hdisj obj).
    + apply list_elem_of_In, Hin.
    + cbn. left.
Qed.

(** Some call of the backend fails exactly when, for some entry, the
    backend answers with an error the call made for it in the world the
    calls for the entries before it left. *)
Lemma history_failed_iff client order : forall w,
  Exists apply_failed (history client order w) <->
  exists before obj mut after,
    order = before ++ (obj, mut) :: after /\
    snd (snd (CreateOrPatch client obj mut (world_after client before w))) <> None.
Proof.
  induction order as [| [obj0 mut0] rest IH]; intros w.
  - split; [intros Hex; inversion Hex |].
    intros (before & obj & mut & after & Heq & _).
    destruct before; discriminate Heq.
  - cbn [backend_history].
    destruct (CreateOrPatch client obj0 mut0 w) as [w' [result err]] eqn:Hans.
    rewrite Exists_cons, IH. split.
    + intros [Hfail | (before & obj & mut & after & -> & Hfail)].
      * exists [], obj0, mut0, rest. split; [reflexivity |].
        unfold SyncSpec.world_after; cbn [fold_left]. rewrite Hans. exact Hfail.
      * exists ((obj0, mut0) :: before), obj, mut, after. split; [reflexivity |].
        unfold SyncSpec.world_after in *; cbn [fold_left fst snd].
        rewrite Hans. exact Hfail.
    + intros (before & obj & mut & after & Heq & Hfail).
      destruct before as [| entry before].
      * injection Heq as <- <- <-. left.
        unfold SyncSpec.world_after in Hfail; cbn [fold_left] in Hfail.
        rewrite Hans in Hfail. exact Hfail.
      * injection Heq as <- ->. right.
        exists before, obj, mut, after. split; [reflexivity |].
        unfold SyncSpec.world_after in *; cbn [fold_left fst snd] in Hfail.
        rewrite Hans in Hfail. exact Hfail.
Qed.

Lemma run_order m client w out :
  run m client w out ->
  exists order,
    order ≡ₚ map_to_list m /\ NoDup (map fst order) /\
    out = run_in order client w.
Proof.
  intros (order & Horder & ->). unfold range_order in Horder.
  exists order. split; [exact Horder |]. split; [| reflexivity].
  rewrite Horder. apply NoDup_fst_map_to_list.
Qed.

(** C1. For every collection of tracked objects and every backend, the
    function returns. In every run the entries come in some order, and the
    calls recorded are exactly the backend's calls for the entries in that
    order, each answered in the world the call before it left. The value
    returned is true if and only if one of those calls of [CreateOrPatch]
    returned an error, that is, if and only if for some tracked entry the
    backend answered its call with an error. For the empty collection the
    function returns false, having made no call, logged nothing and left
    the world as it was. *)
Theorem CreateOrPatchTrackedObjects_requeue
    (m : gmap Object (MutateFn World)) client w :
  (exists out, run m client w out) /\
  (forall out,
     run m client w out ->
     exists order,
       order ≡ₚ map_to_list m /\
       calls (snd out) =
         map call_of (backend_history CreateOrPatch client order w) /\
       world (snd out) = SyncSpec.world_after CreateOrPatch client order w /\
       (fst out = true <->
        Exists apply_failed (backend_history CreateOrPatch client order w)) /\
       (fst out = true <->
        exists before obj mut after,
          order = before ++ (obj, mut) :: after /\
          snd (snd (CreateOrPatch client obj mut
                      (SyncSpec.world_after CreateOrPatch client before w)))
            <> None) /\
       (fst out = true <-> Exists call_failed (calls (snd out)))) /\
  (forall out,
     run ∅ client w out ->
     out = (false, {| world := w; calls := []; logged := [] |})).
Proof.
  split; [apply run_exists |]. split.
  - intros out Hrun.
    destruct (run_order _ _ _ _ Hrun) as (order & Horder & _ & Hout).
    exists order. split; [exact Horder |].
    assert (Hflag : fst out = true <-> Exists apply_failed (history client order w)).
    { rewrite Hout, run_in_history. cbn [fst]. apply existsb_apply_failed. }
    split; [rewrite Hout, run_in_history; reflexivity |].
    split; [rewrite Hout, run_in_history; reflexivity |].
    split; [exact Hflag |].
    split; [rewrite Hflag; apply history_failed_iff |].
    destruct (run_spec _ _ _ _ Hrun) as (_ & _ & _ & ->).
    apply existsb_failed.
  - intros out (order & Horder & ->). unfold range_order in Horder.
    rewrite map_to_list_empty in Horder.
    apply Permutation_nil_r in Horder. subst order. reflexivity.
Qed.

(** C5, as the code has it. A failing call never aborts the batch. In
    every run, whatever the backend answers, the entries come in some
    order and the backend is called for each of them, once, in that order,
    each call in the world the call before it left, failed or not; the
    calls recorded and the log records are those of these calls, one
    record per entry, and the world left is the one the last call left.
    The outcome recorded for an object is the backend's answer to the call
    for that object with its own mutation, in the world the calls before
    it left: the function hands nothing else from one object to the next.
    So the outcome is the same in any two runs when the backend's answer
    for that object does not depend on the world. *)
Theorem CreateOrPatchTrackedObjects_no_abort
    (m : gmap Object (MutateFn World)) client w out :
  run m client w out ->
  (exists order,
     order ≡ₚ map_to_list m /\
     map apply_entry (backend_history CreateOrPatch client order w) = order /\
     calls (snd out) =
       map call_of (backend_history CreateOrPatch client order w) /\
     logged (snd out) =
       map (SyncSpec.record_of GetObjectKind_GroupVersionKind GetName)
         (backend_history CreateOrPatch client order w) /\
     world (snd out) = SyncSpec.world_after CreateOrPatch client order w /\
     (fst out = true <->
      Exists apply_failed (backend_history CreateOrPatch client order w)) /\
     (forall obj mut,
        m !! obj = Some mut ->
        exists before after,
          order = before ++ (obj, mut) :: after /\
          outcome_of obj (snd out) =
            Some (snd (CreateOrPatch client obj mut
                         (SyncSpec.world_after CreateOrPatch client before w))))) /\
  map call_entry (calls (snd out)) ≡ₚ map_to_list m /\
  NoDup (map call_obj (calls (snd out))) /\
  length (calls (snd out)) = size m /\
  length (logged (snd out)) = size m /\
  (forall obj mut client' w' out',
     m !! obj = Some mut ->
     run m client' w' out' ->
     (forall wa wb,
        snd (CreateOrPatch client obj mut wa) =
        snd (CreateOrPatch client' obj mut wb)) ->
     outcome_of obj (snd out) = outcome_of obj (snd out')).
Proof.
  intros Hrun. destruct (run_spec _ _ _ _ Hrun) as (Hperm & _ & Hlogs & _).
  assert (Hlen : length (calls (snd out)) = size m).
  { rewrite <- length_map_to_list, <- Hperm, length_map. reflexivity. }
  split.
  { destruct (run_order _ _ _ _ Hrun) as (order & Horder & Hnodup & Hout).
    exists order. split; [exact Horder |].
    split; [apply history_entries |].
    split; [rewrite Hout, run_in_history; reflexivity |].
    split; [rewrite Hout, run_in_history; reflexivity |].
    split; [rewrite Hout, run_in_history; reflexivity |].
    split; [rewrite Hout, run_in_history; cbn [fst]; apply existsb_apply_failed |].
    intros obj mut Hm.
    assert (Hin : (obj, mut) ∈ order).
    { rewrite Horder. apply elem_of_map_to_list, Hm. }
    apply list_elem_of_split in Hin as (before & after & Hsplit).
    exists before, after. split; [exact Hsplit |].
    rewrite Hout.
    apply (outcome_of_history order client w obj mut before after Hnodup Hsplit). }
  split; [exact Hperm |].
  split; [eapply calls_NoDup, Hrun |].
  split; [exact Hlen |].
  split.
  { rewrite <- Hlen, <- (length_map is_LogError), Hlogs, length_map.
    reflexivity. }
  intros obj mut client' w' out' Hm Hrun' Hsame.
  destruct (outcome_of_run _ _ _ _ _ _ Hrun Hm) as [wa ->].
  destruct (outcome_of_run _ _ _ _ _ _ Hrun' Hm) as [wb ->].
  rewrite (Hsame wa wb). reflexivity.
Qed.

(** C9, as the code has it. The order of the calls is the order in which
    [range] yields the entries of the map, which Go leaves unspecified:
    two runs over the same collection call [CreateOrPatch] for the same
    entries, those of the map, each once, so their call sequences are
    permutations of one another, and need not be equal. *)
Theorem CreateOrPatchTrackedObjects_order
    (m : gmap Object (MutateFn World)) client w out1 out2 :
  run m client w out1 -> run m client w out2 ->
  map call_entry (calls (snd out1)) ≡ₚ map_to_list m /\
  map call_entry (calls (snd out2)) ≡ₚ map_to_list m /\
  NoDup (map call_obj (calls (snd out1))) /\
  NoDup (map call_obj (calls (snd out2))) /\
  map call_entry (calls (snd out1)) ≡ₚ map call_entry (calls (snd out2)).
Proof.
  intros Hrun1 Hrun2.
  destruct (run_spec _ _ _ _ Hrun1) as (Hperm1 & _).
  destruct (run_spec _ _ _ _ Hrun2) as (Hperm2 & _).
  split; [exact Hperm1 |]. split; [exact Hperm2 |].
  split; [eapply calls_NoDup, Hrun1 |]. split; [eapply calls_NoDup, Hrun2 |].
  rewrite Hperm1, Hperm2. reflexivity.
Qed.

End Backend.

(** The two orders in which the runtime can yield the entries of
    [Fakes.trackedAB]. *)
Lemma trackedAB_order_AB :
  range_order Fakes.trackedAB Fakes.orderAB.
Proof.
  unfold range_order, Fakes.trackedAB, Fakes.orderAB.
  rewrite map_to_list_insert by reflexivity.
  rewrite insert_empty, map_to_list_singleton. reflexivity.
Qed.

Lemma trackedAB_order_BA :
  range_order Fakes.trackedAB Fakes.orderBA.
Proof.
  unfold range_order, Fakes.orderBA.
  etransitivity; [apply perm_swap | apply trackedAB_order_AB].
Qed.

(** The batch of section 8 of the specification: the call for [B] fails
    first, the one for [A] is made all the same and succeeds; the function
    returns true and logs one failure record and one success record. *)
Example fake_run_BA :
  Fakes.fake_run Fakes.orderBA Fakes.rejectsB =
    (true,
     {| world := 1%nat;
        calls :=
          [mkCall 2%nat Fakes.mutB "unchanged" (Some (errorString "forbidden"));
           mkCall 1%nat Fakes.mutA "updated" None];
        logged :=
          [LogError (errorString "forbidden") "error creating object"
             [("objname"%string, VString "B");
              ("objKind"%string, VString "ConfigMap");
              ("result"%string, VResult "unchanged")];
           LogInfo "object changed"
             [("objName"%string, VString "A");
              ("objKind"%string, VString "ConfigMap");
              ("result"%string, VResult "updated")]] |}).
Proof. reflexivity. Qed.

Local Abbreviation fake_runs :=
  (CreateOrPatchTrackedObjects Fakes.fake_GroupVersionKind Fakes.fake_GetName
     Fakes.fake_CreateOrPatch Fakes.trackedAB).

Lemma fake_run_BA_possible client :
  fake_runs client 0%nat (Fakes.fake_run Fakes.orderBA client).
Proof. eexists; split; [apply trackedAB_order_BA | reflexivity]. Qed.

Lemma fake_run_AB_possible client :
  fake_runs client 0%nat (Fakes.fake_run Fakes.orderAB client).
Proof. eexists; split; [apply trackedAB_order_AB | reflexivity]. Qed.

Lemma CreateOrPatchTrackedObjects_requeue_witness :
  fake_runs Fakes.rejectsB 0%nat (Fakes.fake_run Fakes.orderBA Fakes.rejectsB) /\
  exists order,
    order ≡ₚ map_to_list Fakes.trackedAB /\
    calls (snd (Fakes.fake_run Fakes.orderBA Fakes.rejectsB)) =
      map call_of
        (backend_history Fakes.fake_CreateOrPatch Fakes.rejectsB order 0%nat) /\
    world (snd (Fakes.fake_run Fakes.orderBA Fakes.rejectsB)) =
      SyncSpec.world_after Fakes.fake_CreateOrPatch Fakes.rejectsB order 0%nat /\
    (fst (Fakes.fake_run Fakes.orderBA Fakes.rejectsB) = true <->
     Exists apply_failed
       (backend_history Fakes.fake_CreateOrPatch Fakes.rejectsB order 0%nat)) /\
    (fst (Fakes.fake_run Fakes.orderBA Fakes.rejectsB) = true <->
     exists before obj mut after,
       order = before ++ (obj, mut) :: after /\
       snd (snd (Fakes.fake_CreateOrPatch Fakes.rejectsB obj mut
                   (SyncSpec.world_after Fakes.fake_CreateOrPatch
                      Fakes.rejectsB before 0%nat))) <> None) /\
    (fst (Fakes.fake_run Fakes.orderBA Fakes.rejectsB) = true <->
     Exists call_failed
       (calls (snd (Fakes.fake_run Fakes.orderBA Fakes.rejectsB)))).
Proof.
  split; [apply fake_run_BA_possible |].
  exact (proj1 (proj2 (CreateOrPatchTrackedObjects_requeue
                         Fakes.fake_GroupVersionKind Fakes.fake_GetName
                         Fakes.fake_CreateOrPatch Fakes.trackedAB
                         Fakes.rejectsB 0%nat))
           _ (fake_run_BA_possible Fakes.rejectsB)).
Defined.

(** With the client that rejects [B], and [B] coming first: both entries
    are called; and the outcome of [A] is the one of the run in which
    nothing is rejected. *)
Lemma CreateOrPatchTrackedObjects_no_abort_witness :
  fake_runs Fakes.rejectsB 0%nat (Fakes.fake_run Fakes.orderBA Fakes.rejectsB) /\
  map call_entry (calls (snd (Fakes.fake_run Fakes.orderBA Fakes.rejectsB)))
    ≡ₚ map_to_list Fakes.trackedAB /\
  length (calls (snd (Fakes.fake_run Fakes.orderBA Fakes.rejectsB))) =
    size Fakes.trackedAB /\
  outcome_of 1%nat (snd (Fakes.fake_run Fakes.orderBA Fakes.rejectsB)) =
    outcome_of 1%nat (snd (Fakes.fake_run Fakes.orderAB Fakes.permissive)) /\
  exists order,
    order ≡ₚ map_to_list Fakes.trackedAB /\
    calls (snd (Fakes.fake_run Fakes.orderBA Fakes.rejectsB)) =
      map call_of
        (backend_history Fakes.fake_CreateOrPatch Fakes.rejectsB order 0%nat) /\
    logged (snd (Fakes.fake_run Fakes.orderBA Fakes.rejectsB)) =
      map (SyncSpec.record_of Fakes.fake_GroupVersionKind Fakes.fake_GetName)
        (backend_history Fakes.fake_CreateOrPatch Fakes.rejectsB order 0%nat) /\
    world (snd (Fakes.fake_run Fakes.orderBA Fakes.rejectsB)) =
      SyncSpec.world_after Fakes.fake_CreateOrPatch Fakes.rejectsB order 0%nat.
Proof.
  pose proof (CreateOrPatchTrackedObjects_no_abort
                Fakes.fake_GroupVersionKind Fakes.fake_GetName
                Fakes.fake_CreateOrPatch Fakes.trackedAB Fakes.rejectsB 0%nat
                (Fakes.fake_run Fakes.orderBA Fakes.rejectsB)
                (fake_run_BA_possible Fakes.rejectsB))
    as ((order & Horder & _ & Hcalls & Hlogged & Hworld & _)
        & Hperm & _ & Hlen & _ & Hindep).
  split; [apply fake_run_BA_possible |].
  split; [exact Hperm |]. split; [exact Hlen |].
  split.
  - apply (Hindep 1%nat Fakes.mutA Fakes.permissive 0%nat
             (Fakes.fake_run Fakes.orderAB Fakes.permissive)).
    + reflexivity.
    + apply fake_run_AB_possible.
    + intros wa wb. reflexivity.
  - exists order. repeat split; assumption.
Defined.

Local Abbreviation quota_runs :=
  (CreateOrPatchTrackedObjects Fakes.fake_GroupVersionKind Fakes.fake_GetName
     QuotaFake.quota_CreateOrPatch Fakes.trackedAB).

(** C5 as the specification words it fails: an object's outcome can depend
    on whether another object fails. The cluster has a quota of one
    object; the two runs go over the same collection, from the same world
    and in the same order, [B] then [A], and the two clients treat [A]
    alike. For the client whose writes of [B] are rejected, [B] fails and
    [A] is created; for the other, [B] is created and [A] fails for lack
    of quota. *)
Lemma CreateOrPatchTrackedObjects_independence_counterexample :
  exists out1 out2,
    quota_runs Fakes.rejectsB 0%nat out1 /\
    quota_runs Fakes.permissive 0%nat out2 /\
    map call_obj (calls (snd out1)) = [2%nat; 1%nat] /\
    map call_obj (calls (snd out2)) = [2%nat; 1%nat] /\
    (forall mut w,
       QuotaFake.quota_CreateOrPatch Fakes.rejectsB 1%nat mut w =
       QuotaFake.quota_CreateOrPatch Fakes.permissive 1%nat mut w) /\
    outcome_of 2%nat (snd out1) =
      Some ("unchanged"%string, Some (errorString "forbidden")) /\
    outcome_of 2%nat (snd out2) = Some ("created"%string, None) /\
    outcome_of 1%nat (snd out1) = Some ("created"%string, None) /\
    outcome_of 1%nat (snd out2) =
      Some ("unchanged"%string, Some (errorString "exceeded quota")) /\
    outcome_of 1%nat (snd out1) <> outcome_of 1%nat (snd out2).
Proof.
  exists (QuotaFake.quota_run Fakes.orderBA Fakes.rejectsB),
    (QuotaFake.quota_run Fakes.orderBA Fakes.permissive).
  split; [eexists; split; [apply trackedAB_order_BA | reflexivity] |].
  split; [eexists; split; [apply trackedAB_order_BA | reflexivity] |].
  repeat split; discriminate.
Qed.

Lemma CreateOrPatchTrackedObjects_order_witness :
  fake_runs Fakes.rejectsB 0%nat (Fakes.fake_run Fakes.orderAB Fakes.rejectsB) /\
  fake_runs Fakes.rejectsB 0%nat (Fakes.fake_run Fakes.orderBA Fakes.rejectsB) /\
  map call_entry (calls (snd (Fakes.fake_run Fakes.orderAB Fakes.rejectsB)))
    ≡ₚ map_to_list Fakes.trackedAB /\
  map call_entry (calls (snd (Fakes.fake_run Fakes.orderBA Fakes.rejectsB)))
    ≡ₚ map_to_list Fakes.trackedAB /\
  NoDup (map call_obj (calls (snd (Fakes.fake_run Fakes.orderAB Fakes.rejectsB)))) /\
  NoDup (map call_obj (calls (snd (Fakes.fake_run Fakes.orderBA Fakes.rejectsB)))) /\
  map call_entry (calls (snd (Fakes.fake_run Fakes.orderAB Fakes.rejectsB)))
    ≡ₚ map call_entry (calls (snd (Fakes.fake_run Fakes.orderBA Fakes.rejectsB))).
Proof.
  split; [apply fake_run_AB_possible |].
  split; [apply fake_run_BA_possible |].
  exact (CreateOrPatchTrackedObjects_order
           Fakes.fake_GroupVersionKind Fakes.fake_GetName
           Fakes.fake_CreateOrPatch Fakes.trackedAB Fakes.rejectsB 0%nat
           (Fakes.fake_run Fakes.orderAB Fakes.rejectsB)
           (Fakes.fake_run Fakes.orderBA Fakes.rejectsB)
           (fake_run_AB_possible Fakes.rejectsB)
           (fake_run_BA_possible Fakes.rejectsB)).
Defined.

(** C9 as the specification words it fails: over the same collection of
    two tracked objects, with the same client and from the same world, one
    run calls [CreateOrPatch] for object 1 and then for object 2, and
    another run for object 2 and then for object 1. *)
Lemma CreateOrPatchTrackedObjects_order_counterexample :
  exists out1 out2,
    fake_runs Fakes.rejectsB 0%nat out1 /\
    fake_runs Fakes.rejectsB 0%nat out2 /\
    map call_obj (calls (snd out1)) = [1%nat; 2%nat] /\
    map call_obj (calls (snd out2)) = [2%nat; 1%nat] /\
    map call_obj (calls (snd out1)) <> map call_obj (calls (snd out2)).
Proof.
  exists (Fakes.fake_run Fakes.orderAB Fakes.rejectsB),
    (Fakes.fake_run Fakes.orderBA Fakes.rejectsB).
  split; [apply fake_run_AB_possible |].
  split; [apply fake_run_BA_possible |].
  split; [reflexivity |]. split; [reflexivity |]. discriminate.
Qed.

End SyncFacts.

(** ** More on the resource profile *)

Module SizerMore.
Import Resource Sizer SizerSpec SizerFacts.

Lemma ramGBMin_max tb : ramGBMin tb = Z.max 1 tb.
Proof. unfold ramGBMin. destruct (Z.ltb_spec tb 2); lia. Qed.

(** On every [int64] input no operation wraps: with [tb] the quotient of
    the size by [2^40] truncated toward zero, which lies between [-2^23]
    and [2^23 - 1], the CPU request is [250 + 500 * tb] millicores, the CPU
    limit [500 + 1000 * tb], the memory request [max 1 tb] gigabytes and
    the memory limit [2 * max 1 tb]. *)
Theorem IPFSContainerResources_exact (storageBytes : Z) :
  Int64.in_range storageBytes ->
  exists r tb,
    IPFSContainerResources storageBytes = Some r /\
    tb = Z.quot storageBytes (2 ^ 40) /\
    - 2 ^ 23 <= tb <= 2 ^ 23 - 1 /\
    cpuRequest r = Some (NewScaledQuantity (250 + 500 * tb) Milli) /\
    cpuLimit r = Some (NewScaledQuantity (500 + 1000 * tb) Milli) /\
    memoryRequest r = Some (NewScaledQuantity (Z.max 1 tb) Giga) /\
    memoryLimit r = Some (NewScaledQuantity (2 * Z.max 1 tb) Giga).
Proof.
  intros Hs. exists (profile (Z.quot storageBytes Tebibyte)), (Z.quot storageBytes Tebibyte).
  split; [apply IPFSContainerResources_in_range, Hs |].
  split; [reflexivity |].
  split; [apply quot_Tebibyte_bounds, Hs |].
  rewrite cpuRequest_profile, cpuLimit_profile, memoryRequest_profile,
    memoryLimit_profile, ramGBMin_max.
  unfold cpuMilliMin. repeat split. do 2 f_equal. lia.
Qed.

Lemma IPFSContainerResources_exact_witness :
  Int64.in_range (2 ^ 63 - 1) /\
  exists r tb,
    IPFSContainerResources (2 ^ 63 - 1) = Some r /\
    tb = Z.quot (2 ^ 63 - 1) (2 ^ 40) /\
    - 2 ^ 23 <= tb <= 2 ^ 23 - 1 /\
    cpuRequest r = Some (NewScaledQuantity (250 + 500 * tb) Milli) /\
    cpuLimit r = Some (NewScaledQuantity (500 + 1000 * tb) Milli) /\
    memoryRequest r = Some (NewScaledQuantity (Z.max 1 tb) Giga) /\
    memoryLimit r = Some (NewScaledQuantity (2 * Z.max 1 tb) Giga).
Proof.
  split; [unfold_range; lia |].
  apply (IPFSContainerResources_exact (2 ^ 63 - 1)). unfold_range; lia.
Defined.

(** Whatever the input, the requests and the limits each hold exactly the
    two resources [cpu] and [memory]; the CPU quantities are scaled in
    thousandths and the memory quantities in units of [10^9], all four in
    decimal SI format. *)
Theorem IPFSContainerResources_keys (storageBytes : Z) :
  exists r cpuReq cpuLim memReq memLim,
    IPFSContainerResources storageBytes = Some r /\
    dom (Requests r) = {[ResourceCPU; ResourceMemory]} /\
    dom (Limits r) = {[ResourceCPU; ResourceMemory]} /\
    cpuRequest r = Some cpuReq /\ cpuLimit r = Some cpuLim /\
    memoryRequest r = Some memReq /\ memoryLimit r = Some memLim /\
    scale cpuReq = Milli /\ scale cpuLim = Milli /\
    scale memReq = Giga /\ scale memLim = Giga /\
    Forall (fun q => format q = DecimalSI) [cpuReq; cpuLim; memReq; memLim].
Proof.
  unfold IPFSContainerResources.
  rewrite Int64Facts.quo_nonzero by (unfold Tebibyte; lia). cbv zeta.
  do 5 eexists. split; [reflexivity |]. cbn [Requests Limits].
  split; [rewrite !dom_insert_L, dom_empty_L; set_solver |].
  split; [rewrite !dom_insert_L, dom_empty_L; set_solver |].
  unfold cpuRequest, cpuLimit, memoryRequest, memoryLimit; cbn [Requests Limits].
  split; [apply lookup_insert_eq |]. split; [apply lookup_insert_eq |].
  split; [rewrite lookup_insert_ne by discriminate; apply lookup_insert_eq |].
  split; [rewrite lookup_insert_ne by discriminate; apply lookup_insert_eq |].
  repeat split. repeat constructor.
Qed.

(** For a non-negative size the profile is a valid one: the CPU request is
    at least 250 millicores, the memory request at least one gigabyte, and
    each limit is at least its request. *)
Theorem IPFSContainerResources_limits_ge_requests (storageBytes : Z) :
  0 <= storageBytes <= Int64.max_int ->
  exists r cpuReq cpuLim memReq memLim,
    IPFSContainerResources storageBytes = Some r /\
    cpuRequest r = Some cpuReq /\ cpuLimit r = Some cpuLim /\
    memoryRequest r = Some memReq /\ memoryLimit r = Some memLim /\
    250 <= value cpuReq /\ 1 <= value memReq /\
    Quantity_le cpuReq cpuLim /\ Quantity_le memReq memLim.
Proof.
  intros Hs. set (tb := Z.quot storageBytes Tebibyte).
  assert (Htb : 0 <= tb).
  { pose proof (quot_Tebibyte_mono 0 storageBytes ltac:(lia)) as Hle.
    change (Z.quot 0 Tebibyte) with 0 in Hle. exact Hle. }
  exists (profile tb).
  exists (NewScaledQuantity (cpuMilliMin tb) Milli),
    (NewScaledQuantity (2 * cpuMilliMin tb) Milli),
    (NewScaledQuantity (ramGBMin tb) Giga),
    (NewScaledQuantity (2 * ramGBMin tb) Giga).
  split; [apply IPFSContainerResources_in_range; unfold_range; lia |].
  split; [apply cpuRequest_profile |]. split; [apply cpuLimit_profile |].
  split; [apply memoryRequest_profile |]. split; [apply memoryLimit_profile |].
  pose proof (ramGBMin_max tb) as Hram.
  cbn [value NewScaledQuantity]. unfold cpuMilliMin.
  split; [lia |]. split; [lia |].
  split; apply Quantity_le_same_scale; unfold Milli, Giga; lia.
Qed.

Lemma IPFSContainerResources_limits_ge_requests_witness :
  0 <= 0 <= Int64.max_int /\
  exists r cpuReq cpuLim memReq memLim,
    IPFSContainerResources 0 = Some r /\
    cpuRequest r = Some cpuReq /\ cpuLimit r = Some cpuLim /\
    memoryRequest r = Some memReq /\ memoryLimit r = Some memLim /\
    250 <= value cpuReq /\ 1 <= value memReq /\
    Quantity_le cpuReq cpuLim /\ Quantity_le memReq memLim.
Proof.
  split; [unfold Int64.max_int; lia |].
  apply (IPFSContainerResources_limits_ge_requests 0). unfold Int64.max_int; lia.
Defined.

(** For a size of minus one tebibyte or less the profile is not a valid
    one: the CPU request is negative and the CPU limit is strictly below
    the CPU request. *)
Theorem IPFSContainerResources_negative_inverted (storageBytes : Z) :
  Int64.min_int <= storageBytes <= - 2 ^ 40 ->
  exists r cpuReq cpuLim,
    IPFSContainerResources storageBytes = Some r /\
    cpuRequest r = Some cpuReq /\ cpuLimit r = Some cpuLim /\
    value cpuReq <= -250 /\
    milli_units cpuLim < milli_units cpuReq /\
    ~ Quantity_le cpuReq cpuLim.
Proof.
  intros Hs. set (tb := Z.quot storageBytes Tebibyte).
  assert (Htb : tb <= -1).
  { pose proof (quot_Tebibyte_mono storageBytes (- 2 ^ 40) ltac:(lia)) as Hle.
    change (Z.quot (- 2 ^ 40) Tebibyte) with (-1) in Hle. exact Hle. }
  exists (profile tb), (NewScaledQuantity (cpuMilliMin tb) Milli),
    (NewScaledQuantity (2 * cpuMilliMin tb) Milli).
  split; [apply IPFSContainerResources_in_range; unfold_range; lia |].
  split; [apply cpuRequest_profile |]. split; [apply cpuLimit_profile |].
  unfold Quantity_le, milli_units, cpuMilliMin, Milli;
    cbn [value scale NewScaledQuantity].
  change (10 ^ (-3 + 3)) with 1. lia.
Qed.

Lemma IPFSContainerResources_negative_inverted_witness :
  Int64.min_int <= - 3 * 2 ^ 40 <= - 2 ^ 40 /\
  exists r cpuReq cpuLim,
    IPFSContainerResources (- 3 * 2 ^ 40) = Some r /\
    cpuRequest r = Some cpuReq /\ cpuLimit r = Some cpuLim /\
    value cpuReq <= -250 /\
    milli_units cpuLim < milli_units cpuReq /\
    ~ Quantity_le cpuReq cpuLim.
Proof.
  split; [unfold Int64.min_int; lia |].
  apply (IPFSContainerResources_negative_inverted (- 3 * 2 ^ 40)).
  unfold Int64.min_int; lia.
Defined.

(** Division truncates toward zero: every size strictly between minus one
    tebibyte and one tebibyte, negative ones included, gets the profile of
    size zero. *)
Theorem IPFSContainerResources_below_one_tebibyte (storageBytes : Z) :
  - 2 ^ 40 < storageBytes < 2 ^ 40 ->
  IPFSContainerResources storageBytes = IPFSContainerResources 0.
Proof.
  intros Hs.
  rewrite (IPFSContainerResources_in_range storageBytes) by (unfold_range; lia).
  rewrite (IPFSContainerResources_in_range 0) by (unfold_range; lia).
  do 2 f_equal. unfold Tebibyte. change (Z.quot 0 (2 ^ 40)) with 0.
  Z.to_euclidean_division_equations. lia.
Qed.

Lemma IPFSContainerResources_below_one_tebibyte_witness :
  - 2 ^ 40 < - 5 < 2 ^ 40 /\
  IPFSContainerResources (- 5) = IPFSContainerResources 0.
Proof.
  split; [lia |].
  apply (IPFSContainerResources_below_one_tebibyte (- 5)). lia.
Defined.

(** One more tebibyte of storage adds exactly 500 millicores to the CPU
    request and 1000 to the CPU limit; it adds one gigabyte to the memory
    request and two to the memory limit, except below one tebibyte, where
    it leaves the memory untouched. *)
Theorem IPFSContainerResources_add_tebibyte (storageBytes : Z) :
  0 <= storageBytes -> storageBytes + 2 ^ 40 <= Int64.max_int ->
  exists r r' cpu mem,
    IPFSContainerResources storageBytes = Some r /\
    IPFSContainerResources (storageBytes + 2 ^ 40) = Some r' /\
    cpuRequest r = Some (NewScaledQuantity cpu Milli) /\
    cpuRequest r' = Some (NewScaledQuantity (cpu + 500) Milli) /\
    cpuLimit r = Some (NewScaledQuantity (2 * cpu) Milli) /\
    cpuLimit r' = Some (NewScaledQuantity (2 * cpu + 1000) Milli) /\
    memoryRequest r = Some (NewScaledQuantity mem Giga) /\
    memoryLimit r = Some (NewScaledQuantity (2 * mem) Giga) /\
    memoryRequest r' =
      Some (NewScaledQuantity
              (if storageBytes <? 2 ^ 40 then mem else mem + 1) Giga) /\
    memoryLimit r' =
      Some (NewScaledQuantity
              (if storageBytes <? 2 ^ 40 then 2 * mem else 2 * mem + 2) Giga).
Proof.
  intros H0 Hmax. set (tb := Z.quot storageBytes Tebibyte).
  assert (Hnext : Z.quot (storageBytes + 2 ^ 40) Tebibyte = tb + 1).
  { unfold tb, Tebibyte. Z.to_euclidean_division_equations. lia. }
  assert (Htb : 0 <= tb /\ (storageBytes < 2 ^ 40 <-> tb = 0)).
  { unfold tb, Tebibyte. Z.to_euclidean_division_equations. lia. }
  exists (profile tb), (profile (tb + 1)), (cpuMilliMin tb), (ramGBMin tb).
  split; [apply IPFSContainerResources_in_range; unfold_range; lia |].
  split; [rewrite <- Hnext; apply IPFSContainerResources_in_range; unfold_range; lia |].
  rewrite !cpuRequest_profile, !cpuLimit_profile, !memoryRequest_profile,
    !memoryLimit_profile, !ramGBMin_max.
  unfold cpuMilliMin.
  repeat split; try (do 2 f_equal; lia);
    destruct (Z.ltb_spec storageBytes (2 ^ 40)); do 2 f_equal; lia.
Qed.

Lemma IPFSContainerResources_add_tebibyte_witness :
  0 <= 2 ^ 40 + 17 /\ 2 ^ 40 + 17 + 2 ^ 40 <= Int64.max_int /\
  exists r r' cpu mem,
    IPFSContainerResources (2 ^ 40 + 17) = Some r /\
    IPFSContainerResources (2 ^ 40 + 17 + 2 ^ 40) = Some r' /\
    cpuRequest r = Some (NewScaledQuantity cpu Milli) /\
    cpuRequest r' = Some (NewScaledQuantity (cpu + 500) Milli) /\
    cpuLimit r = Some (NewScaledQuantity (2 * cpu) Milli) /\
    cpuLimit r' = Some (NewScaledQuantity (2 * cpu + 1000) Milli) /\
    memoryRequest r = Some (NewScaledQuantity mem Giga) /\
    memoryLimit r = Some (NewScaledQuantity (2 * mem) Giga) /\
    memoryRequest r' =
      Some (NewScaledQuantity
              (if 2 ^ 40 + 17 <? 2 ^ 40 then mem else mem + 1) Giga) /\
    memoryLimit r' =
      Some (NewScaledQuantity
              (if 2 ^ 40 + 17 <? 2 ^ 40 then 2 * mem else 2 * mem + 2) Giga).
Proof.
  split; [lia |]. split; [unfold Int64.max_int; lia |].
  apply (IPFSContainerResources_add_tebibyte (2 ^ 40 + 17));
    unfold Int64.max_int; lia.
Defined.

End SizerMore.

(** ** More on secrets and identities *)

Module IdentityMore.
Import Errors Hex Identity IdentityFacts.

Lemma EncodeToString_inj b1 b2 :
  EncodeToString b1 = EncodeToString b2 -> b1 = b2.
Proof.
  intros Heq.
  pose proof (HexFacts.DecodeString_EncodeToString b1) as H1.
  rewrite Heq, HexFacts.DecodeString_EncodeToString in H1. congruence.
Qed.

Section WithRandomSource.

Variable Reader : Type.
Variable rand_Read : Reader -> nat -> Reader * (nat -> Byte.byte) * option error.

Local Abbreviation randomKey := (randomKey Reader rand_Read).
Local Abbreviation NewClusterSecret := (NewClusterSecret Reader rand_Read).
Local Abbreviation NewSwarmKey := (NewSwarmKey Reader rand_Read).

(** [randomKey] reads the random source once, for a buffer of the length
    asked. When the read succeeds it returns exactly that many bytes, the
    ones the read wrote, in order; when the read fails it returns the nil
    slice and the error of the read. *)
Theorem randomKey_result (len : nat) r r' written err :
  rand_Read r len = (r', written, err) ->
  match err with
  | None =>
      exists buf,
        randomKey len r = (r', (buf, None)) /\
        length buf = len /\
        forall i, (i < len)%nat -> nth_error buf i = Some (written i)
  | Some e => randomKey len r = (r', ([], Some e))
  end.
Proof.
  intros Hread. destruct err as [e |].
  - apply (randomKey_failure _ _ _ _ _ _ _ Hread).
  - exists (map written (seq 0 len)).
    split; [apply (randomKey_success _ _ _ _ _ _ Hread) |].
    split; [apply fresh_bytes_length |].
    intros i Hi. rewrite nth_error_map, nth_error_seq.
    destruct (Nat.ltb_spec i len); [reflexivity | lia].
Qed.

(** When the read of the random source fails, [NewSwarmKey] returns the
    empty string and the error of the read, having read the source once. *)
Theorem NewSwarmKey_failure r r' written e :
  rand_Read r 32%nat = (r', written, Some e) ->
  NewSwarmKey r = (r', (EmptyString, Some e)).
Proof.
  intros Hread. unfold Identity.NewSwarmKey, bind.
  rewrite (randomKey_failure _ _ _ _ _ _ _ Hread). reflexivity.
Qed.

(** From the same state of the random source, the swarm key is the two
    header lines followed by what [NewClusterSecret] returns, and both
    fail with the same error; both leave the source in the same state. *)
Theorem NewSwarmKey_NewClusterSecret r :
  NewSwarmKey r =
    match NewClusterSecret r with
    | (r', (secret, None)) =>
        (r', ("/key/swarm/psk/1.0.0" +:+
              String newline ("/base16/" +:+ String newline secret), None))
    | (r', (_, Some e)) => (r', (EmptyString, Some e))
    end.
Proof.
  unfold Identity.NewSwarmKey, Identity.NewClusterSecret, bind.
  destruct (Identity.randomKey Reader rand_Read 32 r) as [r' [buf [e |]]];
    reflexivity.
Qed.

(** The encoding loses nothing: two successful calls return the same
    cluster secret, or the same swarm key, only if the two reads of the
    random source wrote the same 32 bytes. *)
Theorem secrets_equal_only_if_bytes_equal r1 r1' w1 r2 r2' w2 :
  rand_Read r1 32%nat = (r1', w1, None) ->
  rand_Read r2 32%nat = (r2', w2, None) ->
  (snd (NewClusterSecret r1) = snd (NewClusterSecret r2) <->
   map w1 (seq 0 32) = map w2 (seq 0 32)) /\
  (snd (NewSwarmKey r1) = snd (NewSwarmKey r2) <->
   map w1 (seq 0 32) = map w2 (seq 0 32)).
Proof.
  intros Hread1 Hread2.
  unfold Identity.NewSwarmKey, Identity.NewClusterSecret, bind.
  rewrite (randomKey_success _ _ _ _ _ _ Hread1),
    (randomKey_success _ _ _ _ _ _ Hread2).
  generalize (map w1 (seq 0 32)) (map w2 (seq 0 32)). intros b1 b2.
  cbn [snd ret]. split; split.
  - intros [= Heq]. apply EncodeToString_inj, Heq.
  - intros ->. reflexivity.
  - unfold Sprintf_3lines. simpl String.append. intros [= Heq].
    apply EncodeToString_inj, Heq.
  - intros ->. reflexivity.
Qed.

End WithRandomSource.

Section WithLibp2p.

Variable Reader : Type.
Variable privkey pubkey : Type.
Variable GenerateKeyPair :
  Z -> Z -> Gen Reader (option privkey * option pubkey * option error).
Variable IDFromPublicKey : option pubkey -> string * option error.
Variable MarshalPrivateKey : option privkey -> list Byte.byte * option error.
Variable base64_EncodeToString : list Byte.byte -> string.

Local Abbreviation NewKey :=
  (NewKey Reader privkey pubkey GenerateKeyPair IDFromPublicKey).
Local Abbreviation GenerateIdentity :=
  (GenerateIdentity Reader privkey pubkey GenerateKeyPair IDFromPublicKey
     MarshalPrivateKey base64_EncodeToString).
Local Abbreviation step_fails :=
  (step_fails Reader privkey pubkey GenerateKeyPair IDFromPublicKey
     MarshalPrivateKey).

(** [NewKey] asks for an Ed25519 key pair. It returns a private key only
    together with the peer ID of its public key: when key generation or
    the derivation of the peer ID fails, the private key returned is nil,
    the peer ID is empty and the error is the one of the failed step;
    otherwise the key and the ID come back without error. The random
    source is left as key generation left it. *)
Theorem NewKey_result r r' priv pub err :
  GenerateKeyPair Ed25519 4096 r = (r', (priv, pub, err)) ->
  exists key peerid err',
    NewKey r = (r', (key, peerid, err')) /\
    match err' with
    | Some e =>
        key = None /\ peerid = EmptyString /\
        (err = Some e \/ err = None /\ snd (IDFromPublicKey pub) = Some e)
    | None =>
        err = None /\ key = priv /\ IDFromPublicKey pub = (peerid, None)
    end.
Proof.
  intros Hgen. unfold Identity.NewKey, bind. rewrite Hgen.
  destruct err as [e |].
  - exists None, EmptyString, (Some e). repeat split. left; reflexivity.
  - destruct (IDFromPublicKey pub) as [peerid [e |]] eqn:Hid.
    + exists None, EmptyString, (Some e). repeat split. right. split; reflexivity.
    + exists priv, peerid, None. repeat split.
Qed.

(** [GenerateIdentity] returns an error exactly when one of its steps
    fails, and then both strings are empty; when it returns no error, the
    peer ID is the one [NewKey] returned and the string is the base64
    encoding of the serialized private key. It uses the random source
    only through [NewKey]. *)
Theorem GenerateIdentity_result r r' peerid privStr err :
  GenerateIdentity r = (r', (peerid, privStr, err)) ->
  fst (NewKey r) = r' /\
  match err with
  | Some e =>
      peerid = EmptyString /\ privStr = EmptyString /\
      exists step cause, step_fails r step cause r' /\ Unwrap e = Some cause
  | None =>
      (forall step cause r'', ~ step_fails r step cause r'') /\
      exists privateKey privBytes,
        NewKey r = (r', (privateKey, peerid, None)) /\
        MarshalPrivateKey privateKey = (privBytes, None) /\
        privStr = base64_EncodeToString privBytes
  end.
Proof.
  unfold Identity.GenerateIdentity, bind.
  destruct (NewKey r) as [r1 [[privateKey id] [e |]]] eqn:Hkey.
  - intros [= <- <- <- <-]. split; [reflexivity |].
    split; [reflexivity |]. split; [reflexivity |].
    exists KeyGeneration, e. split; [| reflexivity].
    eapply NewKey_fails, Hkey.
  - destruct (MarshalPrivateKey privateKey) as [privBytes [e |]] eqn:Hmarshal.
    + intros [= <- <- <- <-]. split; [reflexivity |].
      split; [reflexivity |]. split; [reflexivity |].
      exists Serialization, e. split; [| reflexivity].
      eapply MarshalPrivateKey_fails; [exact Hkey | exact Hmarshal].
    + intros [= <- <- <- <-]. split; [reflexivity |]. split.
      * intros step cause r'' Hfails.
        destruct Hfails as [? ? ? ? Hk | ? ? ? ? ? Hk Hm]; rewrite Hkey in Hk.
        -- discriminate Hk.
        -- injection Hk as <- <- <-. rewrite Hmarshal in Hm. discriminate Hm.
      * exists privateKey, privBytes. repeat split. exact Hmarshal.
Qed.

End WithLibp2p.

Lemma randomKey_result_witness :
  Fakes.counting_Read 4 3 = (5%nat, (fun i => Fakes.byte_of_nat (4 + i)), None) /\
  exists buf,
    randomKey nat Fakes.counting_Read 3 4%nat = (5%nat, (buf, None)) /\
    length buf = 3%nat /\
    forall i, (i < 3)%nat -> nth_error buf i = Some (Fakes.byte_of_nat (4 + i)).
Proof.
  split; [reflexivity |].
  apply (randomKey_result nat Fakes.counting_Read 3 4%nat 5%nat
           (fun i => Fakes.byte_of_nat (4 + i)) None).
  reflexivity.
Defined.

Lemma NewSwarmKey_failure_witness :
  Fakes.counting_Read 1 32 =
    (2%nat, (fun i => Fakes.byte_of_nat (1 + i)),
     Some (errorString "entropy source unavailable")) /\
  NewSwarmKey nat Fakes.counting_Read 1%nat =
    (2%nat, (EmptyString, Some (errorString "entropy source unavailable"))).
Proof.
  split; [reflexivity |].
  apply (NewSwarmKey_failure nat Fakes.counting_Read 1%nat 2%nat
           (fun i => Fakes.byte_of_nat (1 + i))).
  reflexivity.
Defined.

Lemma secrets_equal_only_if_bytes_equal_witness :
  Fakes.counting_Read 0 32 = (1%nat, (fun i => Fakes.byte_of_nat (0 + i)), None) /\
  Fakes.counting_Read 2 32 = (3%nat, (fun i => Fakes.byte_of_nat (2 + i)), None) /\
  (snd (NewClusterSecret nat Fakes.counting_Read 0%nat) =
   snd (NewClusterSecret nat Fakes.counting_Read 2%nat) <->
   map (fun i => Fakes.byte_of_nat (0 + i)) (seq 0 32) =
   map (fun i => Fakes.byte_of_nat (2 + i)) (seq 0 32)) /\
  (snd (NewSwarmKey nat Fakes.counting_Read 0%nat) =
   snd (NewSwarmKey nat Fakes.counting_Read 2%nat) <->
   map (fun i => Fakes.byte_of_nat (0 + i)) (seq 0 32) =
   map (fun i => Fakes.byte_of_nat (2 + i)) (seq 0 32)).
Proof.
  split; [reflexivity |]. split; [reflexivity |].
  apply (secrets_equal_only_if_bytes_equal nat Fakes.counting_Read
           0%nat 1%nat (fun i => Fakes.byte_of_nat (0 + i))
           2%nat 3%nat (fun i => Fakes.byte_of_nat (2 + i)));
    reflexivity.
Defined.

(** Key generation gives the key numbered 7, whose peer ID cannot be
    derived: the private key is dropped. *)
Lemma NewKey_result_witness :
  Fakes.fake_GenerateKeyPair false Ed25519 4096 7%nat =
    (8%nat, (Some 7%nat, Some 7%nat, None)) /\
  exists key peerid err',
    Fakes.fake_NewKey false 7%nat = (8%nat, (key, peerid, err')) /\
    match err' with
    | Some e =>
        key = None /\ peerid = EmptyString /\
        (@None error = Some e \/
         @None error = None /\
         snd (Fakes.fake_IDFromPublicKey (Some 7%nat)) = Some e)
    | None =>
        @None error = None /\ key = Some 7%nat /\
        Fakes.fake_IDFromPublicKey (Some 7%nat) = (peerid, None)
    end.
Proof.
  split; [reflexivity |].
  apply (NewKey_result nat nat nat (Fakes.fake_GenerateKeyPair false)
           Fakes.fake_IDFromPublicKey 7%nat 8%nat (Some 7%nat) (Some 7%nat) None).
  reflexivity.
Defined.

Lemma GenerateIdentity_result_witness :
  Fakes.fake_GenerateIdentity false false 0%nat =
    (1%nat, ("12D3KooW"%string, "0801"%string, None)) /\
  fst (Fakes.fake_NewKey false 0%nat) = 1%nat /\
  (forall step cause r'',
     ~ step_fails nat nat nat (Fakes.fake_GenerateKeyPair false)
         Fakes.fake_IDFromPublicKey (Fakes.fake_MarshalPrivateKey false)
         0%nat step cause r'') /\
  exists privateKey privBytes,
    Fakes.fake_NewKey false 0%nat = (1%nat, (privateKey, "12D3KooW"%string, None)) /\
    Fakes.fake_MarshalPrivateKey false privateKey = (privBytes, None) /\
    "0801"%string = Fakes.fake_base64 privBytes.
Proof.
  split; [reflexivity |].
  apply (GenerateIdentity_result nat nat nat (Fakes.fake_GenerateKeyPair false)
           Fakes.fake_IDFromPublicKey (Fakes.fake_MarshalPrivateKey false)
           Fakes.fake_base64 0%nat 1%nat "12D3KooW"%string "0801"%string None).
  reflexivity.
Defined.

End IdentityMore.

(** ** More on the batch of tracked objects *)

Module SyncMore.
Import Errors Sync SyncFacts.

Section Backend.

Context {World Object : Type} `{Countable Object} {Client : Type}.
Variable GetObjectKind_GroupVersionKind : World -> Object -> GroupVersionKind.
Variable GetName : World -> Object -> string.
Variable CreateOrPatch :
  Client -> Object -> MutateFn World -> World ->
  World * (OperationResult * option error).

Local Abbreviation loop_body :=
  (loop_body GetObjectKind_GroupVersionKind GetName CreateOrPatch).
Local Abbreviation range_loop :=
  (range_loop GetObjectKind_GroupVersionKind GetName CreateOrPatch).
Local Abbreviation run_in :=
  (CreateOrPatchTrackedObjects_in GetObjectKind_GroupVersionKind GetName
     CreateOrPatch).
Local Abbreviation run :=
  (CreateOrPatchTrackedObjects GetObjectKind_GroupVersionKind GetName
     CreateOrPatch).
Local Abbreviation genuine := (genuine CreateOrPatch).
Local Abbreviation Call := (@Call World Object).
Local Abbreviation Effects := (@Effects World Object).

(** Every tracked entry has its call, and every call is for a tracked
    entry; each call carries an answer of the backend. *)
Lemma run_calls_cover m client w out obj mut :
  run m client w out -> m !! obj = Some mut ->
  exists c : Call,
    In c (calls (snd out)) /\ call_obj c = obj /\ call_mut c = mut /\
    genuine client c.
Proof.
  intros Hrun Hm.
  destruct (run_spec _ _ _ _ _ _ _ Hrun) as (Hperm & Hgen & _).
  assert (Hentry : (obj, mut) ∈ map call_entry (calls (snd out))).
  { rewrite Hperm. apply elem_of_map_to_list, Hm. }
  apply list_elem_of_In, in_map_iff in Hentry as (c & Hc & Hin).
  exists c. injection Hc as Hobj Hmut.
  repeat split; try assumption.
  rewrite Forall_forall in Hgen. apply Hgen, list_elem_of_In, Hin.
Qed.

Lemma run_calls_tracked m client w out (c : Call) :
  run m client w out -> In c (calls (snd out)) ->
  m !! call_obj c = Some (call_mut c) /\ genuine client c.
Proof.
  intros Hrun Hin.
  destruct (run_spec _ _ _ _ _ _ _ Hrun) as (Hperm & Hgen & _).
  split.
  - apply elem_of_map_to_list. rewrite <- Hperm.
    apply list_elem_of_In. apply (in_map call_entry), Hin.
  - rewrite Forall_forall in Hgen. apply Hgen, list_elem_of_In, Hin.
Qed.

(** When the backend's answers do not depend on the world, the value
    returned does not depend on the order in which the entries come, nor
    on the world the run starts from: it is true exactly when the backend
    answers with an error for some tracked entry. *)
Theorem CreateOrPatchTrackedObjects_requeue_order_independent
    (m : gmap Object (MutateFn World)) client w0 :
  (forall obj mut wa wb,
     m !! obj = Some mut ->
     snd (CreateOrPatch client obj mut wa) =
     snd (CreateOrPatch client obj mut wb)) ->
  forall w out,
    run m client w out ->
    (fst out = true <->
     exists obj mut,
       m !! obj = Some mut /\
       snd (snd (CreateOrPatch client obj mut w0)) <> None).
Proof.
  intros Hindep w out Hrun.
  destruct (run_spec _ _ _ _ _ _ _ Hrun) as (_ & _ & _ & ->).
  rewrite existsb_failed, Exists_exists. split.
  - intros (c & Hin%list_elem_of_In & Hfail).
    destruct (run_calls_tracked _ _ _ _ _ Hrun Hin) as (Hm & wa & Hwa).
    exists (call_obj c), (call_mut c). split; [exact Hm |].
    rewrite (Hindep _ _ w0 wa Hm), Hwa. exact Hfail.
  - intros (obj & mut & Hm & Hfail).
    destruct (run_calls_cover _ _ _ _ _ _ Hrun Hm)
      as (c & Hin & <- & <- & wa & Hwa).
    exists c. split; [apply list_elem_of_In, Hin |].
    unfold call_failed. rewrite (Hindep _ _ w0 wa Hm), Hwa in Hfail. exact Hfail.
Qed.


(** The loop started with some flag and effects does what it does started
    afresh, with the flag or-ed in and the calls and records appended. *)
Lemma range_loop_frame client order : forall requeue (st : Effects),
  range_loop client order requeue st =
    let out := range_loop client order false (mkEffects (world st) [] []) in
    (requeue || fst out,
     {| world := world (snd out);
        calls := calls st ++ calls (snd out);
        logged := logged st ++ logged (snd out) |}).
Proof.
  induction order as [| [obj mut] rest IH]; intros requeue st.
  - cbn. rewrite orb_false_r, !app_nil_r. destruct st; reflexivity.
  - cbn [Sync.range_loop]. unfold Sync.loop_body. cbn [world calls logged].
    destruct (CreateOrPatch client obj mut (world st)) as [w1 [result [e |]]];
      cbv zeta; cbn [app];
      rewrite IH; symmetry; rewrite IH; cbn [fst snd world calls logged];
      rewrite <- ?app_assoc, ?orb_true_r, ?orb_false_l; reflexivity.
Qed.

(** When [range] yields the entries as a sequence [order1] followed by a
    sequence [order2], the run is the run over [order1] followed by the
    run over [order2] started in the world the first one left: the value
    returned is the or of the two, the world left is the one the second
    leaves, and the calls and the log records of the first come before
    those of the second. A failure in the first part changes nothing to
    what is done for the second. *)
Theorem CreateOrPatchTrackedObjects_in_app order1 order2 client w :
  CreateOrPatchTrackedObjects_in GetObjectKind_GroupVersionKind GetName
    CreateOrPatch (order1 ++ order2) client w =
    let out1 :=
      CreateOrPatchTrackedObjects_in GetObjectKind_GroupVersionKind GetName
        CreateOrPatch order1 client w in
    let out2 :=
      CreateOrPatchTrackedObjects_in GetObjectKind_GroupVersionKind GetName
        CreateOrPatch order2 client (world (snd out1)) in
    (fst out1 || fst out2,
     {| world := world (snd out2);
        calls := calls (snd out1) ++ calls (snd out2);
        logged := logged (snd out1) ++ logged (snd out2) |}).
Proof.
  unfold Sync.CreateOrPatchTrackedObjects_in. cbv zeta.
  revert w. induction order1 as [| [obj mut] rest IH]; intros w.
  - cbn. destruct (range_loop client order2 false _) as [rq [w2 cs rs]].
    reflexivity.
  - cbn [app Sync.range_loop].
    destruct (loop_body client obj mut false (mkEffects w [] [])) as [rq1 st1].
    rewrite (range_loop_frame client (rest ++ order2)),
      (range_loop_frame client rest). cbv zeta. rewrite IH.
    cbn [fst snd world calls logged].
    rewrite orb_assoc, !app_assoc. reflexivity.
Qed.

(** A collection of one object has one behaviour: one call, answered in
    the world the run starts from; one log record, with the name and the
    kind the object has in that world, which is an error record carrying
    the error when the call fails; true is returned exactly in that
    case. *)
Theorem CreateOrPatchTrackedObjects_singleton obj mut client w out :
  CreateOrPatchTrackedObjects GetObjectKind_GroupVersionKind GetName
    CreateOrPatch {[obj := mut]} client w out ->
  let answer := CreateOrPatch client obj mut w in
  let result := fst (snd answer) in
  let err := snd (snd answer) in
  let keysAndValues name :=
    [(name, VString (GetName w obj));
     ("objKind"%string,
      VString (Kind (GetObjectKind_GroupVersionKind w obj)));
     ("result"%string, VResult result)] in
  out =
    (bool_decide (err <> None),
     {| world := fst answer;
        calls := [mkCall obj mut result err];
        logged :=
          [match err with
           | Some e =>
               LogError e "error creating object" (keysAndValues "objname"%string)
           | None => LogInfo "object changed" (keysAndValues "objName"%string)
           end] |}).
Proof.
  intros (order & Horder & ->). unfold range_order in Horder.
  rewrite map_to_list_singleton in Horder.
  apply Permutation_singleton_r in Horder. subst order.
  unfold Sync.CreateOrPatchTrackedObjects_in. cbn [Sync.range_loop].
  unfold Sync.loop_body. cbn [world calls logged app].
  destruct (CreateOrPatch client obj mut w) as [w1 [result [e |]]]; reflexivity.
Qed.

End Backend.

Local Abbreviation fake_runs :=
  (CreateOrPatchTrackedObjects Fakes.fake_GroupVersionKind Fakes.fake_GetName
     Fakes.fake_CreateOrPatch).

Lemma fake_answers_world_independent client obj mut (wa wb : nat) :
  Fakes.trackedAB !! obj = Some mut ->
  snd (Fakes.fake_CreateOrPatch client obj mut wa) =
  snd (Fakes.fake_CreateOrPatch client obj mut wb).
Proof.
  unfold Fakes.trackedAB. intros Hm.
  unfold Fakes.fake_CreateOrPatch.
  apply lookup_insert_Some in Hm as [[_ <-] | [_ Hm]];
    [cbn; destruct (existsb _ client); reflexivity |].
  apply lookup_insert_Some in Hm as [[_ <-] | [_ Hm]];
    [cbn; destruct (existsb _ client); reflexivity |].
  rewrite lookup_empty in Hm. discriminate Hm.
Qed.



Lemma CreateOrPatchTrackedObjects_requeue_order_independent_witness :
  (forall obj mut wa wb,
     Fakes.trackedAB !! obj = Some mut ->
     snd (Fakes.fake_CreateOrPatch Fakes.rejectsB obj mut wa) =
     snd (Fakes.fake_CreateOrPatch Fakes.rejectsB obj mut wb)) /\
  fake_runs Fakes.trackedAB Fakes.rejectsB 0%nat
    (Fakes.fake_run Fakes.orderAB Fakes.rejectsB) /\
  (fst (Fakes.fake_run Fakes.orderAB Fakes.rejectsB) = true <->
   exists obj mut,
     Fakes.trackedAB !! obj = Some mut /\
     snd (snd (Fakes.fake_CreateOrPatch Fakes.rejectsB obj mut 5%nat)) <> None).
Proof.
  split; [apply fake_answers_world_independent |].
  split; [apply fake_run_AB_possible |].
  apply (CreateOrPatchTrackedObjects_requeue_order_independent
           Fakes.fake_GroupVersionKind Fakes.fake_GetName
           Fakes.fake_CreateOrPatch Fakes.trackedAB Fakes.rejectsB 5%nat
           (fake_answers_world_independent Fakes.rejectsB) 0%nat
           (Fakes.fake_run Fakes.orderAB Fakes.rejectsB)
           (fake_run_AB_possible Fakes.rejectsB)).
Defined.


Lemma CreateOrPatchTrackedObjects_singleton_witness :
  fake_runs MoreFakes.trackedC Fakes.permissive 4%nat
    (Sync.CreateOrPatchTrackedObjects_in Fakes.fake_GroupVersionKind
       Fakes.fake_GetName Fakes.fake_CreateOrPatch
       [(3%nat, MoreFakes.mutFail)] Fakes.permissive 4%nat) /\
  Sync.CreateOrPatchTrackedObjects_in Fakes.fake_GroupVersionKind
    Fakes.fake_GetName Fakes.fake_CreateOrPatch
    [(3%nat, MoreFakes.mutFail)] Fakes.permissive 4%nat =
    (true,
     {| world := 4%nat;
        calls :=
          [mkCall 3%nat MoreFakes.mutFail "unchanged"
             (Some (errorString "upstream"))];
        logged :=
          [LogError (errorString "upstream") "error creating object"
             [("objname"%string, VString "B");
              ("objKind"%string, VString "ConfigMap");
              ("result"%string, VResult "unchanged")]] |}).
Proof.
  assert (Hrun :
    fake_runs MoreFakes.trackedC Fakes.permissive 4%nat
      (Sync.CreateOrPatchTrackedObjects_in Fakes.fake_GroupVersionKind
         Fakes.fake_GetName Fakes.fake_CreateOrPatch
         [(3%nat, MoreFakes.mutFail)] Fakes.permissive 4%nat)).
  { eexists; split; [| reflexivity].
    unfold range_order, MoreFakes.trackedC.
    rewrite map_to_list_singleton. reflexivity. }
  split; [exact Hrun |].
  exact (CreateOrPatchTrackedObjects_singleton
           Fakes.fake_GroupVersionKind Fakes.fake_GetName
           Fakes.fake_CreateOrPatch 3%nat MoreFakes.mutFail Fakes.permissive
           4%nat _ Hrun).
Defined.

End SyncMore.
